(** * Multi-factor risk service: the REDCap synchronisation pipeline

    A shallow embedding of the Go packages [models], [client] and [server]
    (record grouping, conversion to risk-service results, the per-study
    posting loop, the refresh lock and the pie handler), with the
    properties the specification states about them. *)

From Stdlib Require Import ZArith String Ascii List Lia Permutation Sorted.
From stdpp Require Import gmap strings list pretty.
Import ListNotations.
Open Scope Z_scope.

(** ** Go values shared by all packages *)

(** A Go [error] is modelled by its message; the [error] interface value
    is [option error], [None] being [nil]. *)
Definition error := string.

(** A Go pair [(value, err)] of which exactly one side is set. *)
Inductive res (A : Type) : Type :=
| Ok (a : A)
| Err (e : error).
Arguments Ok {A} a.
Arguments Err {A} e.

(** The dynamic values an [interface{}] field holds after JSON decoding or
    a direct assignment in Go.  [IFloat64 n] and [IInt n] stand for the
    float64, respectively int, of integral value [n]; a float64 is only
    modelled where [fmt] prints it without an exponent (below 10^21 in
    magnitude). *)
Inductive iface : Type :=
| IString (s : string)
| IFloat64 (n : Z)
| IInt (n : Z)
| INil.

(** ** Fragments of the Go standard library *)

Module fmt.
(** [fmt.Sprint(v)] for one operand. *)
Definition Sprint (v : iface) : string :=
  match v with
  | IString s => s
  | IFloat64 n => pretty n
  | IInt n => pretty n
  | INil => "<nil>"
  end.

(** The verb [%s] applied to an [interface{}] operand: strings print as
    they are, other kinds print Go's bad-verb form. *)
Definition verb_s (v : iface) : string :=
  match v with
  | IString s => s
  | IFloat64 n => "%!s(float64=" +:+ pretty n +:+ ")"
  | IInt n => "%!s(int=" +:+ pretty n +:+ ")"
  | INil => "%!s(<nil>)"
  end.

(** The verb [%d] applied to an int. *)
Definition verb_d (n : Z) : string := pretty n.
End fmt.

Module strconv.
Definition isDigit (c : ascii) : bool :=
  ((48 <=? N_of_ascii c) && (N_of_ascii c <=? 57))%N.

Definition digitVal (c : ascii) : Z := Z.of_N (N_of_ascii c) - 48.

Fixpoint digits (l : list ascii) (acc : Z) : option Z :=
  match l with
  | [] => Some acc
  | c :: l' => if isDigit c then digits l' (10 * acc + digitVal c) else None
  end.

Definition minInt : Z := - 2 ^ 63.
Definition maxInt : Z := 2 ^ 63 - 1.

(** [strconv.Atoi] on a 64-bit platform: an optional sign, at least one
    decimal digit, nothing else, and a value that fits an int. *)
Definition Atoi (s : string) : option Z :=
  match list_ascii_of_string s with
  | [] => None
  | c :: rest =>
      let neg := Ascii.eqb c "-" in
      let ds := if Ascii.eqb c "-" || Ascii.eqb c "+" then rest else c :: rest in
      match ds with
      | [] => None
      | _ =>
          match digits ds 0 with
          | Some n =>
              let v := if neg then - n else n in
              if (minInt <=? v) && (v <=? maxInt) then Some v else None
          | None => None
          end
      end
  end.
End strconv.

Module time.
(** A [time.Time] is modelled by the seconds its wall clock in
    [time.Local] shows since 1970-01-01 00:00. *)
Definition Time := Z.

Definition Before (t u : Time) : bool := t <? u.

Definition isLeap (year : Z) : bool :=
  (year mod 4 =? 0) && (negb (year mod 100 =? 0) || (year mod 400 =? 0)).

Definition daysIn (month year : Z) : Z :=
  if month =? 2 then (if isLeap year then 29 else 28)
  else if (month =? 4) || (month =? 6) || (month =? 9) || (month =? 11) then 30
  else 31.

(** Days from 1970-01-01 to the given civil date. *)
Definition daysSinceEpoch (year month day : Z) : Z :=
  let y := if month <=? 2 then year - 1 else year in
  let era := y / 400 in
  let yoe := y - era * 400 in
  let mp := if 2 <? month then month - 3 else month + 9 in
  let doy := (153 * mp + 2) / 5 + day - 1 in
  let doe := yoe * 365 + yoe / 4 - yoe / 100 + doy in
  era * 146097 + doe - 719468.

(** [time.Date(year, month, day, 0, 0, 0, 0, time.Local)]. *)
Definition Date (year month day : Z) : Time := 86400 * daysSinceEpoch year month day.

Definition num2 (a b : ascii) : option Z :=
  if strconv.isDigit a && strconv.isDigit b
  then Some (10 * strconv.digitVal a + strconv.digitVal b) else None.

(** [time.ParseInLocation("2006-01-02", value, time.Local)]: four digits,
    a hyphen, two digits, a hyphen, two digits and no extra text; the
    month in 1..12 and the day within the month. *)
Definition ParseInLocation (value : string) : option Time :=
  match list_ascii_of_string value with
  | [y1; y2; y3; y4; h1; m1; m2; h2; d1; d2] =>
      match num2 y1 y2, num2 y3 y4, num2 m1 m2, num2 d1 d2 with
      | Some yh, Some yl, Some month, Some day =>
          let year := 100 * yh + yl in
          if Ascii.eqb h1 "-" && Ascii.eqb h2 "-"
             && (1 <=? month) && (month <=? 12)
             && (1 <=? day) && (day <=? daysIn month year)
          then Some (Date year month day) else None
      | _, _, _, _ => None
      end
  | _ => None
  end.
End time.

Module bson.
(** A [bson.ObjectId] is a Go string of twelve raw bytes. *)
Definition ObjectId := string.
End bson.

(** ** Package [plugin] of the risk-service library: the types the
    conversion produces, and the operations the platform provides *)

Module plugin.
Record Slice : Type := {
  Name : string;
  Weight : Z;
  MaxValue : Z;
  Value : Z
}.

Record Pie : Type := {
  Id : bson.ObjectId;
  Created : time.Time;
  Patient : string;
  Slices : list Slice
}.

(** [Score] is a Go [*int]: [nil], or a pointer to the [Value] field of
    one of the slices of the result's own pie.  The pointer is modelled
    by the index of that slice.  ([ProbabilityDecimal] is never set by
    this repository and is left out.) *)
Record RiskServiceCalculationResult : Type := {
  AsOf : time.Time;
  Score : option nat;
  Pie_ : Pie
}.

(** Reading through a pointer into [slices]. *)
Definition deref (slices : list Slice) (p : nat) : Z :=
  match slices !! p with
  | Some sl => Value sl
  | None => 0
  end.

(** [*result.Score] *)
Definition ScoreValue (r : RiskServiceCalculationResult) : option Z :=
  match Score r with
  | Some p => Some (deref (Slices (Pie_ r)) p)
  | None => None
  end.

(** What the code takes from its platform while converting: fresh
    object identifiers, the clock, and the library's in-place sort of a
    result slice (here returning the slice's new contents). *)
Class Platform : Type := {
  World : Type;
  NewObjectId : World -> bson.ObjectId * World;
  Now : World -> time.Time * World;
  SortResultsByAsOfDate :
    list RiskServiceCalculationResult -> list RiskServiceCalculationResult
}.

Definition asOfLe (a b : RiskServiceCalculationResult) : Prop := AsOf a <= AsOf b.

(** The contract of [SortResultsByAsOfDate]: it reorders the slice, and
    leaves it ascending by [AsOf]. *)
Class SortContract (P : Platform) : Prop := {
  sort_perm : forall l, Permutation (SortResultsByAsOfDate l) l;
  sort_sorted : forall l, Sorted asOfLe (SortResultsByAsOfDate l)
}.
End plugin.

(** ** Package [models] *)

Module models.
Import plugin.

Record Record_ : Type := {
  StudyID : iface;
  EventName : string;
  RiskFactorDate : string;
  ClinicalRisk : string;
  FunctionalRisk : string;
  PsychosocialRisk : string;
  UtilizationRisk : string;
  PerceivedRisk : string
}.

Definition StudyIDString (r : Record_) : string := fmt.Sprint (StudyID r).

(** The message of the parse error is the [time] package's and is not
    reproduced. *)
Definition RiskFactorDateTime (r : Record_) : res time.Time :=
  match time.ParseInLocation (RiskFactorDate r) with
  | Some t => Ok t
  | None => Err ("parsing time " +:+ RiskFactorDate r)
  end.

Definition nonEmpty (s : string) : bool := negb (String.eqb s "").

Definition IsRiskFactorsComplete (r : Record_) : bool :=
  nonEmpty (RiskFactorDate r) && nonEmpty (ClinicalRisk r) && nonEmpty (FunctionalRisk r)
  && nonEmpty (PsychosocialRisk r) && nonEmpty (UtilizationRisk r) && nonEmpty (PerceivedRisk r).

Definition newSlice (name score : string) : res Slice :=
  match strconv.Atoi score with
  | None => Err ("Invalid " +:+ name +:+ ": " +:+ score)
  | Some value => Ok {| Name := name; Weight := 25; MaxValue := 4; Value := value |}
  end.

(** [r.StudyID != ""]: an interface value differs from the empty string
    unless it holds exactly that string. *)
Definition isEmptyString (v : iface) : bool :=
  match v with
  | IString s => String.eqb s ""
  | _ => false
  end.

Record Study : Type := {
  ID : string;
  Records : list Record_
}.

(** [new(Study)] *)
Definition newStudy : Study := {| ID := ""; Records := [] |}.

(** [AddRecord] on a [Study] pointer: the returned error, and the study
    after the call. *)
Definition Study_AddRecord (r : Record_) (s : Study) : option error * Study :=
  let append s := {| ID := ID s; Records := Records s ++ [r] |} in
  if negb (isEmptyString (StudyID r)) then
    if String.eqb (ID s) "" then
      (None, append {| ID := StudyIDString r; Records := Records s |})
    else if negb (String.eqb (ID s) (StudyIDString r)) then
      (Some ("Record with study ID " +:+ fmt.verb_s (StudyID r)
             +:+ " cannot be added to study with ID " +:+ ID s), s)
    else (None, append s)
  else (None, append s).

(** [StudyMap.AddRecord]; the map holds pointers, so the study is
    updated where it sits. *)
Definition StudyMap_AddRecord (r : Record_) (m : gmap string Study)
  : option error * gmap string Study :=
  let studyID := StudyIDString r in
  let study := match m !! studyID with Some s => s | None => newStudy end in
  let '(err, study') := Study_AddRecord r study in
  (err, <[studyID := study']> m).

Fixpoint StudyMap_AddRecords (rs : list Record_) (m : gmap string Study)
  : option error * gmap string Study :=
  match rs with
  | [] => (None, m)
  | r :: rest =>
      match StudyMap_AddRecord r m with
      | (Some err, m') => (Some err, m')
      | (None, m') => StudyMap_AddRecords rest m'
      end
  end.

Section Conversion.
Context {P : Platform}.

Definition ToPie (patientURL : string) (r : Record_) (w : World) : res Pie * World :=
  if negb (IsRiskFactorsComplete r) then
    (Err "Cannot create a pie with incomplete risk factors", w)
  else
    let '(id, w1) := NewObjectId w in
    let '(now, w2) := Now w1 in
    match newSlice "Clinical Risk" (ClinicalRisk r) with
    | Err e => (Err e, w2)
    | Ok crSlice =>
    match newSlice "Functional and Environmental Risk" (FunctionalRisk r) with
    | Err e => (Err e, w2)
    | Ok frSlice =>
    match newSlice "Psychosocial and Mental Health Risk" (PsychosocialRisk r) with
    | Err e => (Err e, w2)
    | Ok prSlice =>
    match newSlice "Utilization Risk" (UtilizationRisk r) with
    | Err e => (Err e, w2)
    | Ok urSlice =>
        (Ok {| Id := id; Created := now; Patient := patientURL;
               Slices := [crSlice; frSlice; prSlice; urSlice] |}, w2)
    end end end end.

(** The loop [for i := range pie.Slices] that moves the [Score]
    pointer: [i] is the index reached, [rest] the slices from [i] on. *)
Fixpoint scoreLoop (slices : list Slice) (i : nat) (rest : list Slice)
  (score : option nat) : option nat :=
  match rest with
  | [] => score
  | sl :: rest' =>
      let score' :=
        match score with
        | None => Some i
        | Some p => if deref slices p <? Value sl then Some i else score
        end in
      scoreLoop slices (S i) rest' score'
  end.

Definition ToRiskServiceCalculationResult (patientURL : string) (r : Record_) (w : World)
  : res RiskServiceCalculationResult * World :=
  match ToPie patientURL r w with
  | (Err e, w') => (Err e, w')
  | (Ok pie, w') =>
      match RiskFactorDateTime r with
      | Err e => (Err e, w')
      | Ok asOf =>
          (Ok {| AsOf := asOf;
                 Score := scoreLoop (Slices pie) 0 (Slices pie) None;
                 Pie_ := pie |}, w')
      end
  end.

(** The loop of [ToRiskServiceCalculationResults] over [s.Records]. *)
Fixpoint convertLoop (patientURL : string) (records : list Record_)
  (results : list RiskServiceCalculationResult) (w : World)
  : list RiskServiceCalculationResult * World :=
  match records with
  | [] => (results, w)
  | r :: rest =>
      match ToRiskServiceCalculationResult patientURL r w with
      | (Ok result, w') => convertLoop patientURL rest (results ++ [result]) w'
      | (Err _, w') => convertLoop patientURL rest results w'
      end
  end.

Definition ToRiskServiceCalculationResults (patientURL : string) (s : Study) (w : World)
  : list RiskServiceCalculationResult * World :=
  let '(results, w') := convertLoop patientURL (Records s) [] w in
  (SortResultsByAsOfDate results, w').
End Conversion.
End models.

(** ** The FHIR bundle as the client reads it after JSON decoding *)

Module fhir.
(** The dynamic type of an entry's [Resource] interface value: a
    [*Patient] with its [Id], or anything else (another resource type,
    or no resource at all). *)
Inductive ResourceValue : Type :=
| PatientResource (Id : string)
| OtherResource (resourceType : string).

Record BundleEntryComponent : Type := { Resource : ResourceValue }.

Record BundleLinkComponent : Type := { Relation : string; Url : string }.

Record Bundle : Type := {
  Entry : list BundleEntryComponent;
  Link : list BundleLinkComponent
}.
End fhir.

Module http.
Definition StatusOK : Z := 200.
Definition StatusBadRequest : Z := 400.
Definition StatusNotFound : Z := 404.

(** A response, with what [json.NewDecoder(res.Body).Decode] makes of
    its body. *)
Record Response (A : Type) : Type := {
  StatusCode : Z;
  Status : string;
  Decode : res A
}.
Arguments StatusCode {A} _.
Arguments Status {A} _.
Arguments Decode {A} _.
End http.

Module gostrings.
(** [strings.HasSuffix] *)
Definition HasSuffix (s suffix : string) : bool :=
  let n := String.length s in
  let k := String.length suffix in
  (k <=? n)%nat && String.eqb (String.substring (n - k) k s) suffix.
End gostrings.

(** ** Package [client] *)

Module client.
Import plugin models.

Record RiskServicePluginConfig : Type := {
  ConfigName : string;
  MethodSystem : string;
  MethodCode : string;
  MethodText : string;
  PredictedOutcome : string;
  DefaultPieSlices : list Slice;
  RequiredResourceTypes : list string
}.

Definition REDCapRiskServiceConfig : RiskServicePluginConfig := {|
  ConfigName := "Multi-Factor Risk Service";
  MethodSystem := "http://interventionengine.org/risk-assessments";
  MethodCode := "MultiFactor";
  MethodText := "Multi-Factor";
  PredictedOutcome := "Catastrophic Health Event";
  DefaultPieSlices := [
    {| Name := "Clinical Risk"; Weight := 25; MaxValue := 4; Value := 0 |};
    {| Name := "Functional and Environmental Risk"; Weight := 25; MaxValue := 4; Value := 0 |};
    {| Name := "Psychosocial and Mental Health Risk"; Weight := 25; MaxValue := 4; Value := 0 |};
    {| Name := "Utilization Risk"; Weight := 25; MaxValue := 4; Value := 0 |} ];
  RequiredResourceTypes := []
|}.

(** The collaborators the client talks to: the HTTP client (a GET with
    the [Accept] header set, a form POST), and the risk-service
    library's reconciliation.  Each acts on the world. *)
Class Services (P : Platform) : Type := {
  Collection : Type;
  NewRequest : string -> string -> option error;
  Do : string -> World -> res (http.Response fhir.Bundle) * World;
  PostForm : string -> list (string * string) -> World
             -> res (http.Response (list Record_)) * World;
  UpdateRiskAssessmentsAndPies :
    string -> string -> list RiskServiceCalculationResult -> Collection -> string
    -> RiskServicePluginConfig -> World -> option error * World
}.

(** A call either returns or panics. *)
Inductive outcome (A : Type) : Type :=
| Returns (a : A)
| Panics.
Arguments Returns {A} a.
Arguments Panics {A}.

Record Result : Type := {
  StudyID : string;
  FHIRPatientID : string;
  RiskAssessmentCount : Z;
  Error : option error
}.

Definition withError (r : Result) (e : error) : Result :=
  {| StudyID := StudyID r; FHIRPatientID := FHIRPatientID r;
     RiskAssessmentCount := RiskAssessmentCount r; Error := Some e |}.

Definition withFHIRPatientID (r : Result) (id : string) : Result :=
  {| StudyID := StudyID r; FHIRPatientID := id;
     RiskAssessmentCount := RiskAssessmentCount r; Error := Error r |}.

Definition withRiskAssessmentCount (r : Result) (n : Z) : Result :=
  {| StudyID := StudyID r; FHIRPatientID := FHIRPatientID r;
     RiskAssessmentCount := n; Error := Error r |}.

(** The messages of the [fmt.Errorf] calls of [PostRiskAssessments]. *)
Definition errCreateRequest (studyID err : string) : error :=
  "Couldn't create HTTP request for querying patient with Study ID: " +:+ studyID
  +:+ ".  Error: " +:+ err.
Definition errQuery (studyID err : string) : error :=
  "Couldn't query FHIR server for patient with Study ID: " +:+ studyID
  +:+ ".  Error: " +:+ err.
Definition errStatus (code : Z) (status studyID : string) : error :=
  "Received HTTP " +:+ fmt.verb_d code +:+ " " +:+ status
  +:+ " from FHIR server when querying patient with Study ID: " +:+ studyID +:+ ".".
Definition errDecode (studyID err : string) : error :=
  "Couldn't properly decode results from patient query with Study ID: " +:+ studyID
  +:+ ".  Error: " +:+ err.
Definition errNotFound (studyID : string) : error :=
  "Couldn't find patient with Study ID " +:+ studyID.
Definition errTooMany (count : Z) (studyID : string) : error :=
  "Found too many patients (" +:+ fmt.verb_d count +:+ ") with Study ID " +:+ studyID.

Definition patientQueryURL (fhirEndpoint studyID : string) : string :=
  fhirEndpoint +:+ "/Patient?identifier=" +:+ studyID.

Section Posting.
Context {P : Platform} {S : Services P}.

(** The body of the loop of [PostRiskAssessments] for one study: the
    result it appends, or a panic of the type assertion. *)
Definition postStudy (fhirEndpoint : string) (study : Study)
  (pieCollection : Collection) (basisPieURL : string) (w : World)
  : outcome Result * World :=
  let result := {| StudyID := ID study; FHIRPatientID := "";
                   RiskAssessmentCount := 0; Error := None |} in
  let url := patientQueryURL fhirEndpoint (ID study) in
  match NewRequest "GET" url with
  | Some err => (Returns (withError result (errCreateRequest (ID study) err)), w)
  | None =>
  match Do url w with
  | (Err err, w1) => (Returns (withError result (errQuery (ID study) err)), w1)
  | (Ok resp, w1) =>
  if negb (http.StatusCode resp =? http.StatusOK) then
    (Returns (withError result
       (errStatus (http.StatusCode resp) (http.Status resp) (ID study))), w1)
  else
  match http.Decode resp with
  | Err err => (Returns (withError result (errDecode (ID study) err)), w1)
  | Ok patients =>
  if (length (fhir.Entry patients) =? 0)%nat then
    (Returns (withError result (errNotFound (ID study))), w1)
  else if (1 <? length (fhir.Entry patients))%nat then
    (Returns (withError result
       (errTooMany (Z.of_nat (length (fhir.Entry patients))) (ID study))), w1)
  else
  match fhir.Entry patients with
  | [] => (Panics, w1)
  | e :: _ =>
  match fhir.Resource e with
  | fhir.OtherResource _ => (Panics, w1)
  | fhir.PatientResource patientID =>
      let result := withFHIRPatientID result patientID in
      let '(calcResults, w2) :=
        ToRiskServiceCalculationResults (fhirEndpoint +:+ "/Patient/" +:+ patientID) study w1 in
      let '(err, w3) :=
        UpdateRiskAssessmentsAndPies fhirEndpoint patientID calcResults pieCollection
          basisPieURL REDCapRiskServiceConfig w2 in
      match err with
      | Some e => (Returns (withError result e), w3)
      | None =>
          (Returns (withRiskAssessmentCount result (Z.of_nat (length calcResults))), w3)
      end
  end end end end end.

(** The loop itself, over the studies in the order [range] yields them. *)
Fixpoint postLoop (fhirEndpoint : string) (order : list Study)
  (pieCollection : Collection) (basisPieURL : string)
  (results : list Result) (w : World) : outcome (list Result) * World :=
  match order with
  | [] => (Returns results, w)
  | study :: rest =>
      match postStudy fhirEndpoint study pieCollection basisPieURL w with
      | (Panics, w') => (Panics, w')
      | (Returns result, w') =>
          postLoop fhirEndpoint rest pieCollection basisPieURL (results ++ [result]) w'
      end
  end.

(** [range studies] visits every entry of the map once, in an order
    the language leaves open. *)
Definition rangeOrder (studies : gmap string Study) (order : list Study) : Prop :=
  Permutation order (snd <$> map_to_list studies).

(** [PostRiskAssessments], given the order in which the map is visited. *)
Definition PostRiskAssessments (fhirEndpoint : string) (order : list Study)
  (pieCollection : Collection) (basisPieURL : string) (w : World)
  : outcome (list Result) * World :=
  postLoop fhirEndpoint order pieCollection basisPieURL [] w.

Definition redcapForm (token : string) : list (string * string) :=
  [ ("token", token); ("content", "record"); ("format", "json");
    ("returnFormat", "json"); ("type", "flat");
    ("fields", "study_id, redcap_event_name, rf_date, rf_cmc_risk_cat, rf_func_risk_cat, rf_sb_risk_cat, rf_util_risk_cat, rf_risk_predicted") ].

Definition GetREDCapData (endpoint token : string) (w : World)
  : res (gmap string Study) * World :=
  let endpoint :=
    if negb (gostrings.HasSuffix endpoint "/") then endpoint +:+ "/" else endpoint in
  match PostForm endpoint (redcapForm token) w with
  | (Err err, w') => (Err err, w')
  | (Ok resp, w') =>
      match http.Decode resp with
      | Err err => (Err err, w')
      | Ok records =>
          match StudyMap_AddRecords records ∅ with
          | (Some err, _) => (Err err, w')
          | (None, m) => (Ok m, w')
          end
      end
  end.
End Posting.

(** *** [RefreshRiskAssessments] and the package-level mutex [m]

    The function locks [m], defers the unlock, fetches, and posts.  Both
    the HTTP handler of [/refresh] and the cron job call it, on any
    number of goroutines; the process is modelled by the state of the
    mutex, the world, and the point each invocation has reached. *)

Inductive trigger : Type :=
| HTTPTrigger
| CronTrigger.

(** Where an invocation stands: at [m.Lock()]; past it, with the unlock
    deferred, before [GetREDCapData]; before [PostRiskAssessments]; or
    returned (or unwound by a panic), the deferred unlock done. *)
Inductive pc : Type :=
| AtLock
| Fetching
| Posting (studies : gmap string Study)
| Returned (out : outcome (res (list Result))).

Record invocation : Type := { source : trigger; at_ : pc }.

Definition inFlight (i : invocation) : bool :=
  match at_ i with
  | Fetching | Posting _ => true
  | AtLock | Returned _ => false
  end.

Definition moveTo (i : invocation) (p : pc) : invocation :=
  {| source := source i; at_ := p |}.

Section Refresh.
Context {P : Platform} {S : Services P}.
Variables (fhirEndpoint redcapEndpoint redcapToken : string).
Variables (pieCollection : Collection) (basisPieURL : string).

Record Process : Type := {
  locked : bool;
  world : World;
  invocations : list invocation
}.

(** The zero value of a mutex is unlocked. *)
Definition start (w : World) : Process :=
  {| locked := false; world := w; invocations := [] |}.

Inductive step : Process -> Process -> Prop :=
| step_invoke s t :
    step s {| locked := locked s; world := world s;
              invocations := invocations s ++ [ {| source := t; at_ := AtLock |} ] |}
| step_lock s i inv :
    invocations s !! i = Some inv -> at_ inv = AtLock ->
    locked s = false ->
    step s {| locked := true; world := world s;
              invocations := <[i := moveTo inv Fetching]> (invocations s) |}
| step_fetch_failed s i inv err w' :
    invocations s !! i = Some inv -> at_ inv = Fetching ->
    GetREDCapData redcapEndpoint redcapToken (world s) = (Err err, w') ->
    step s {| locked := false; world := w';
              invocations := <[i := moveTo inv (Returned (Returns (Err err)))]> (invocations s) |}
| step_fetched s i inv studies w' :
    invocations s !! i = Some inv -> at_ inv = Fetching ->
    GetREDCapData redcapEndpoint redcapToken (world s) = (Ok studies, w') ->
    step s {| locked := locked s; world := w';
              invocations := <[i := moveTo inv (Posting studies)]> (invocations s) |}
| step_posted s i inv studies order results w' :
    invocations s !! i = Some inv -> at_ inv = Posting studies ->
    rangeOrder studies order ->
    PostRiskAssessments fhirEndpoint order pieCollection basisPieURL (world s)
      = (Returns results, w') ->
    step s {| locked := false; world := w';
              invocations := <[i := moveTo inv (Returned (Returns (Ok results)))]> (invocations s) |}
| step_panicked s i inv studies order w' :
    invocations s !! i = Some inv -> at_ inv = Posting studies ->
    rangeOrder studies order ->
    PostRiskAssessments fhirEndpoint order pieCollection basisPieURL (world s)
      = (Panics, w') ->
    step s {| locked := false; world := w';
              invocations := <[i := moveTo inv (Returned Panics)]> (invocations s) |}.

Definition reachable (s : Process) : Prop := exists w, rtc step (start w) s.

(** The number of cycles in flight. *)
Definition cyclesInFlight (s : Process) : nat :=
  length (List.filter inFlight (invocations s)).
End Refresh.

(** *** The body of [RefreshRiskAssessments], run on its own *)

Section Cycle.
Context {P : Platform} {S : Services P}.

(** What [RefreshRiskAssessments] does between taking and releasing the
    lock: [range] is the order in which the map of studies is visited. *)
Definition RefreshRiskAssessments (range : gmap string Study -> list Study)
  (fhirEndpoint redcapEndpoint redcapToken : string)
  (pieCollection : Collection) (basisPieURL : string) (w : World)
  : outcome (res (list Result)) * World :=
  match GetREDCapData redcapEndpoint redcapToken w with
  | (Err err, w1) => (Returns (Err err), w1)
  | (Ok studies, w1) =>
      match PostRiskAssessments fhirEndpoint (range studies) pieCollection basisPieURL w1 with
      | (Returns results, w2) => (Returns (Ok results), w2)
      | (Panics, w2) => (Panics, w2)
      end
  end.
End Cycle.

(** *** [LogResultSummary] and [Result.MarshalJSON] *)

(** A Go int on a 64-bit platform, as the integer it wraps to. *)
Definition wrapInt (z : Z) : Z := (z + 2 ^ 63) mod 2 ^ 64 - 2 ^ 63.

(** The loop of [LogResultSummary] over the results, with the counters
    [numErrors] and [numAssessments]. *)
Fixpoint summaryLoop (results : list Result) (numErrors numAssessments : Z) : Z * Z :=
  match results with
  | [] => (numErrors, numAssessments)
  | result :: rest =>
      summaryLoop rest
        (match Error result with
         | Some _ => wrapInt (numErrors + 1)
         | None => numErrors
         end)
        (wrapInt (numAssessments + RiskAssessmentCount result))
  end.

(** [LogResultSummary], as the line it logs. *)
Definition LogResultSummary (results : list Result) : string :=
  let '(numErrors, numAssessments) := summaryLoop results 0 0 in
  "Refreshed risk assessments for " +:+ fmt.verb_d (Z.of_nat (length results))
  +:+ " patients: " +:+ fmt.verb_d numErrors +:+ " errors, "
  +:+ fmt.verb_d numAssessments +:+ " risk assessments.".

(** A member value of a JSON object. *)
Inductive jsonValue : Type :=
| JString (s : string)
| JNumber (n : Z).

(** A string field tagged [omitempty]. *)
Definition omitempty (key value : string) : list (string * jsonValue) :=
  if String.eqb value "" then [] else [(key, JString value)].

(** [errString] of [MarshalJSON]: the message of the error, empty for [nil]. *)
Definition errString (r : Result) : string :=
  match Error r with
  | Some e => e
  | None => ""
  end.

(** [Result.MarshalJSON], as the members of the object that
    [json.Marshal] writes for the anonymous struct, in the order of its
    fields; their encoding to bytes is the library's. *)
Definition MarshalJSON (r : Result) : list (string * jsonValue) :=
  omitempty "studyID" (StudyID r)
  ++ omitempty "fhirPatientID" (FHIRPatientID r)
  ++ [("riskAssessmentCount"%string, JNumber (RiskAssessmentCount r))]
  ++ omitempty "error" (errString r).
End client.

(** ** Package [server]: the pie handler *)

Module server.
Import plugin.

Definition fromHexChar (c : ascii) : option N :=
  let n := N_of_ascii c in
  if ((48 <=? n) && (n <=? 57))%N then Some (n - 48)%N
  else if ((97 <=? n) && (n <=? 102))%N then Some (n - 87)%N
  else if ((65 <=? n) && (n <=? 70))%N then Some (n - 55)%N
  else None.

(** [hex.DecodeString] on the bytes of the string. *)
Fixpoint DecodeString (l : list ascii) : option (list ascii) :=
  match l with
  | [] => Some []
  | [_] => None
  | a :: b :: rest =>
      match fromHexChar a, fromHexChar b, DecodeString rest with
      | Some hi, Some lo, Some bytes => Some (ascii_of_N (16 * hi + lo) :: bytes)
      | _, _, _ => None
      end
  end.

(** [bson.IsObjectIdHex] *)
Definition IsObjectIdHex (s : string) : bool :=
  (String.length s =? 24)%nat
  && match DecodeString (list_ascii_of_string s) with Some _ => true | None => false end.

(** [bson.ObjectIdHex]; [None] is its panic on an invalid hex form. *)
Definition ObjectIdHex (s : string) : option bson.ObjectId :=
  match DecodeString (list_ascii_of_string s) with
  | Some bytes =>
      if (length bytes =? 12)%nat then Some (string_of_list_ascii bytes) else None
  | None => None
  end.

(** What the handler writes to the gin context. *)
Inductive response : Type :=
| JSON (code : Z) (pie : Pie)
| Status (code : Z)
| String_ (code : Z) (body : string).

Definition code (r : response) : Z :=
  match r with
  | JSON c _ | Status c | String_ c _ => c
  end.

(** The handler of [GET /pies/:id] registered by [RegisterPieHandler],
    over the documents of the pie collection keyed by their [_id].
    [query.One] fails when no document has the identifier. *)
Definition pieHandler (pieCollection : gmap bson.ObjectId Pie) (id : string)
  : client.outcome response :=
  if IsObjectIdHex id then
    match ObjectIdHex id with
    | None => client.Panics
    | Some oid =>
        match pieCollection !! oid with
        | Some pie => client.Returns (JSON http.StatusOK pie)
        | None => client.Returns (Status http.StatusNotFound)
        end
    end
  else
    client.Returns
      (String_ http.StatusBadRequest "Bad ID format for requested Pie. Should be a BSON Id").
End server.

(** ** A concrete platform and the fixture records, to run the code on *)

Module fixtures.
Import plugin client models.

(** The three records of [fixtures/example_records.json], as
    [TestLoadRecordsFromJSON] reads them. *)
Definition record0 : Record_ := {|
  StudyID := IFloat64 1; EventName := "initial_arm_1"; RiskFactorDate := "2015-12-07";
  ClinicalRisk := "3"; FunctionalRisk := "2"; PsychosocialRisk := "1";
  UtilizationRisk := "3"; PerceivedRisk := "3" |}.
Definition record1 : Record_ := {|
  StudyID := IFloat64 1; EventName := "visit1_arm_1"; RiskFactorDate := "2016-04-01";
  ClinicalRisk := "3"; FunctionalRisk := "2"; PsychosocialRisk := "1";
  UtilizationRisk := "4"; PerceivedRisk := "4" |}.
Definition record2 : Record_ := {|
  StudyID := IString "a"; EventName := "initial_arm_1"; RiskFactorDate := "2016-02-21";
  ClinicalRisk := "1"; FunctionalRisk := "1"; PsychosocialRisk := "2";
  UtilizationRisk := "1"; PerceivedRisk := "2" |}.
Definition exampleRecords : list Record_ := [record0; record1; record2].

Definition withStudyID (r : Record_) (v : iface) : Record_ := {|
  StudyID := v; EventName := EventName r; RiskFactorDate := RiskFactorDate r;
  ClinicalRisk := ClinicalRisk r; FunctionalRisk := FunctionalRisk r;
  PsychosocialRisk := PsychosocialRisk r; UtilizationRisk := UtilizationRisk r;
  PerceivedRisk := PerceivedRisk r |}.

Definition withClinicalRisk (r : Record_) (v : string) : Record_ := {|
  StudyID := StudyID r; EventName := EventName r; RiskFactorDate := RiskFactorDate r;
  ClinicalRisk := v; FunctionalRisk := FunctionalRisk r;
  PsychosocialRisk := PsychosocialRisk r; UtilizationRisk := UtilizationRisk r;
  PerceivedRisk := PerceivedRisk r |}.

Definition withFunctionalRisk (r : Record_) (v : string) : Record_ := {|
  StudyID := StudyID r; EventName := EventName r; RiskFactorDate := RiskFactorDate r;
  ClinicalRisk := ClinicalRisk r; FunctionalRisk := v;
  PsychosocialRisk := PsychosocialRisk r; UtilizationRisk := UtilizationRisk r;
  PerceivedRisk := PerceivedRisk r |}.

(** A world that counts the identifiers handed out, keeps a clock, and
    logs the URLs of the GET requests sent. *)
Record TestWorld : Type := {
  issued : N;
  clock : Z;
  requests : list string
}.

Definition world0 : TestWorld := {| issued := 0; clock := 1460000000; requests := [] |}.

Definition objectIdOf (n : N) : bson.ObjectId :=
  string_of_list_ascii (replicate 11 zero ++ [ascii_of_N n]).

(** A stable insertion sort by [AsOf]. *)
Fixpoint insertByAsOf (x : RiskServiceCalculationResult)
  (l : list RiskServiceCalculationResult) : list RiskServiceCalculationResult :=
  match l with
  | [] => [x]
  | y :: l' => if AsOf x <=? AsOf y then x :: y :: l' else y :: insertByAsOf x l'
  end.

Fixpoint sortByAsOf (l : list RiskServiceCalculationResult)
  : list RiskServiceCalculationResult :=
  match l with
  | [] => []
  | x :: l' => insertByAsOf x (sortByAsOf l')
  end.

#[export] Instance testPlatform : Platform := {|
  World := TestWorld;
  NewObjectId w :=
    (objectIdOf (issued w),
     {| issued := issued w + 1; clock := clock w; requests := requests w |});
  Now w :=
    (clock w, {| issued := issued w; clock := clock w + 1; requests := requests w |});
  SortResultsByAsOfDate := sortByAsOf
|}.

(** What the servers of a scenario answer: the FHIR server per URL, the
    REDCap server, and the patients for which reconciliation fails. *)
Record Scenario : Type := {
  invalidURL : string -> bool;
  pages : list (string * res (http.Response fhir.Bundle));
  redcap : res (http.Response (list Record_));
  unreconcilable : list string
}.

Fixpoint lookupPage (url : string) (l : list (string * res (http.Response fhir.Bundle)))
  : res (http.Response fhir.Bundle) :=
  match l with
  | [] => Ok {| http.StatusCode := 404; http.Status := "404 Not Found";
                http.Decode := Err "EOF" |}
  | (u, r) :: l' => if String.eqb u url then r else lookupPage url l'
  end.

Definition logRequest (url : string) (w : TestWorld) : TestWorld :=
  {| issued := issued w; clock := clock w; requests := requests w ++ [url] |}.

Definition testServices (sc : Scenario) : Services testPlatform := {|
  Collection := unit;
  NewRequest _ url := if invalidURL sc url then Some "invalid URL" else None;
  Do url w := (lookupPage url (pages sc), logRequest url w);
  PostForm _ _ w := (redcap sc, w);
  UpdateRiskAssessmentsAndPies _ patientID _ _ _ _ w :=
    (if existsb (String.eqb patientID) (unreconcilable sc)
     then Some "reconciliation failed" else None, w)
|}.

Definition okBundle (b : fhir.Bundle) : res (http.Response fhir.Bundle) :=
  Ok {| http.StatusCode := 200; http.Status := "200 OK"; http.Decode := Ok b |}.

Definition patientEntry (id : string) : fhir.BundleEntryComponent :=
  {| fhir.Resource := fhir.PatientResource id |}.

Definition study1 : Study := {| ID := "1"; Records := [record0; record1] |}.
Definition studyA : Study := {| ID := "a"; Records := [record2] |}.
Definition studyFOO : Study := {| ID := "FOO"; Records := [withStudyID record2 (IString "FOO")] |}.

(** The FHIR server of the client tests: patients for the study IDs 1
    and a, nobody for FOO. *)
Definition twoPatients : Scenario := {|
  invalidURL _ := false;
  pages := [
    ("http://fhir/Patient?identifier=1",
     okBundle {| fhir.Entry := [patientEntry "56fd63cdac1c5d77f6f695a1"]; fhir.Link := [] |});
    ("http://fhir/Patient?identifier=a",
     okBundle {| fhir.Entry := [patientEntry "56fd63cdac1c5d77f6f695a2"]; fhir.Link := [] |});
    ("http://fhir/Patient?identifier=FOO",
     okBundle {| fhir.Entry := []; fhir.Link := [] |}) ];
  redcap := Ok {| http.StatusCode := 200; http.Status := "200 OK"; http.Decode := Ok exampleRecords |};
  unreconcilable := []
|}.

(** A server that pages its answers one subject at a time: the first
    page for study ID 7 holds one patient and a link to a second page
    with another. *)
Definition pagedServer : Scenario := {|
  invalidURL _ := false;
  pages := [
    ("http://fhir/Patient?identifier=7",
     okBundle {| fhir.Entry := [patientEntry "p1"];
                 fhir.Link := [ {| fhir.Relation := "next";
                                   fhir.Url := "http://fhir/Patient?identifier=7&_offset=1" |} ] |});
    ("http://fhir/Patient?identifier=7&_offset=1",
     okBundle {| fhir.Entry := [patientEntry "p2"]; fhir.Link := [] |}) ];
  redcap := Err "unused";
  unreconcilable := []
|}.

Definition study7 : Study :=
  {| ID := "7"; Records := [withStudyID record0 (IString "7")] |}.

(** The run of the client test with an unfound study ID, visiting the
    studies 1, FOO and a in this order: the world after the first study,
    the world after the second, and the result of the first. *)
Definition afterStudy1 : TestWorld :=
  {| issued := 2; clock := 1460000002;
     requests := ["http://fhir/Patient?identifier=1"] |}.
Definition afterStudyFOO : TestWorld :=
  {| issued := 2; clock := 1460000002;
     requests := ["http://fhir/Patient?identifier=1";
                  "http://fhir/Patient?identifier=FOO"] |}.
Definition resultStudy1 : Result :=
  {| client.StudyID := "1"; FHIRPatientID := "56fd63cdac1c5d77f6f695a1";
     RiskAssessmentCount := 2; Error := None |}.

(** The study map [GetREDCapData] builds from the fixture records. *)
Definition exampleStudies : gmap string Study :=
  snd (StudyMap_AddRecords exampleRecords ∅).

(** The pie of [TestGetPie], and a collection that stores it. *)
Definition storedPieHex : string := "56fd63cdac1c5d77f6f695a3".

Definition storedPieId : bson.ObjectId :=
  match server.ObjectIdHex storedPieHex with
  | Some oid => oid
  | None => ""
  end.

Definition storedPie : Pie := {|
  Id := storedPieId;
  Created := 1460000000;
  Patient := "http://fhir/Patient/56fd63cdac1c5d77f6f695a1";
  Slices := [
    {| Name := "Clinical Risk"; Weight := 25; MaxValue := 4; Value := 1 |};
    {| Name := "Functional and Environmental Risk"; Weight := 25; MaxValue := 4; Value := 2 |};
    {| Name := "Psychosocial and Mental Health Risk"; Weight := 25; MaxValue := 4; Value := 3 |};
    {| Name := "Utilization Risk"; Weight := 25; MaxValue := 4; Value := 4 |} ]
|}.

Definition pies : gmap bson.ObjectId Pie := {[ storedPieId := storedPie ]}.

(** A server that answers the query for study ID 9 with a single entry
    that is not a patient. *)
Definition strayResource : Scenario := {|
  invalidURL _ := false;
  pages := [
    ("http://fhir/Patient?identifier=9",
     okBundle {| fhir.Entry := [ {| fhir.Resource := fhir.OtherResource "OperationOutcome" |} ];
                 fhir.Link := [] |}) ];
  redcap := Err "unused";
  unreconcilable := []
|}.

Definition study9 : Study :=
  {| ID := "9"; Records := [withStudyID record0 (IString "9")] |}.

(** A process in which the HTTP handler has started a refresh that holds
    the lock, and the cron job has called for another. *)
Definition refreshing : Process := {|
  locked := true;
  world := world0;
  invocations := [ {| source := HTTPTrigger; at_ := Fetching |};
                   {| source := CronTrigger; at_ := AtLock |} ]
|}.
End fixtures.

(** ** Notions the properties are stated with *)

Module notions.
Import plugin client models.

(** [names msg id]: the message contains [id]. *)
Definition names (msg id : string) : Prop :=
  exists pre post, msg = pre +:+ id +:+ post.


Definition isSome {A : Type} (o : option A) : bool :=
  match o with Some _ => true | None => false end.

Definition isOk {A : Type} (x : res A) : bool :=
  match x with Ok _ => true | Err _ => false end.

(** The records [ToRiskServiceCalculationResult] converts: complete, the
    four category scores integers, the date a calendar date. *)
Definition convertible (r : Record_) : bool :=
  IsRiskFactorsComplete r
  && isSome (strconv.Atoi (ClinicalRisk r))
  && isSome (strconv.Atoi (FunctionalRisk r))
  && isSome (strconv.Atoi (PsychosocialRisk r))
  && isSome (strconv.Atoi (UtilizationRisk r))
  && isSome (time.ParseInLocation (RiskFactorDate r)).

(** The stages at which the processing of one study can fail. *)
Inductive stage : Type :=
| BuildQuery
| SendQuery
| QueryStatus
| DecodeResponse
| NoMatch
| ManyMatches
| Reconcile.

(** The kinds of failure of the identity resolution. *)
Inductive kind : Type :=
| SubjectNotFound
| AmbiguousSubject
| UpstreamUnavailable.

Definition kindOf (st : stage) : option kind :=
  match st with
  | NoMatch => Some SubjectNotFound
  | ManyMatches => Some AmbiguousSubject
  | BuildQuery | SendQuery | QueryStatus | DecodeResponse => Some UpstreamUnavailable
  | Reconcile => None
  end.

(** The result of a study that failed before a patient was resolved. *)
Definition unresolved (study : Study) (err : error) : Result :=
  {| client.StudyID := ID study; FHIRPatientID := "";
     RiskAssessmentCount := 0; Error := Some err |}.

Section Failures.
Context {P : Platform} {S : Services P}.
Variables (fhirEndpoint : string) (study : Study).
Variables (pieCollection : Collection) (basisPieURL : string).

(** [studyFailure w st detail err w']: started in world [w], the
    processing of the study fails at stage [st]; [detail] is what the
    collaborator reported (the cause, the status, the number of
    matches), [err] the error the client makes of it, and [w'] the
    world the failure leaves. *)
Inductive studyFailure (w : World) : stage -> string -> error -> World -> Prop :=
| fail_build cause :
    NewRequest "GET" (patientQueryURL fhirEndpoint (ID study)) = Some cause ->
    studyFailure w BuildQuery cause (errCreateRequest (ID study) cause) w
| fail_send cause w1 :
    NewRequest "GET" (patientQueryURL fhirEndpoint (ID study)) = None ->
    Do (patientQueryURL fhirEndpoint (ID study)) w = (Err cause, w1) ->
    studyFailure w SendQuery cause (errQuery (ID study) cause) w1
| fail_status resp w1 :
    NewRequest "GET" (patientQueryURL fhirEndpoint (ID study)) = None ->
    Do (patientQueryURL fhirEndpoint (ID study)) w = (Ok resp, w1) ->
    http.StatusCode resp <> http.StatusOK ->
    studyFailure w QueryStatus
      (fmt.verb_d (http.StatusCode resp) +:+ " " +:+ http.Status resp)
      (errStatus (http.StatusCode resp) (http.Status resp) (ID study)) w1
| fail_decode resp cause w1 :
    NewRequest "GET" (patientQueryURL fhirEndpoint (ID study)) = None ->
    Do (patientQueryURL fhirEndpoint (ID study)) w = (Ok resp, w1) ->
    http.StatusCode resp = http.StatusOK ->
    http.Decode resp = Err cause ->
    studyFailure w DecodeResponse cause (errDecode (ID study) cause) w1
| fail_no_match resp patients w1 :
    NewRequest "GET" (patientQueryURL fhirEndpoint (ID study)) = None ->
    Do (patientQueryURL fhirEndpoint (ID study)) w = (Ok resp, w1) ->
    http.StatusCode resp = http.StatusOK ->
    http.Decode resp = Ok patients ->
    fhir.Entry patients = [] ->
    studyFailure w NoMatch "" (errNotFound (ID study)) w1
| fail_many_matches resp patients w1 :
    NewRequest "GET" (patientQueryURL fhirEndpoint (ID study)) = None ->
    Do (patientQueryURL fhirEndpoint (ID study)) w = (Ok resp, w1) ->
    http.StatusCode resp = http.StatusOK ->
    http.Decode resp = Ok patients ->
    (1 < length (fhir.Entry patients))%nat ->
    studyFailure w ManyMatches
      (fmt.verb_d (Z.of_nat (length (fhir.Entry patients))))
      (errTooMany (Z.of_nat (length (fhir.Entry patients))) (ID study)) w1
| fail_reconcile resp patients patientID calcResults err w1 w2 w3 :
    NewRequest "GET" (patientQueryURL fhirEndpoint (ID study)) = None ->
    Do (patientQueryURL fhirEndpoint (ID study)) w = (Ok resp, w1) ->
    http.StatusCode resp = http.StatusOK ->
    http.Decode resp = Ok patients ->
    fhir.Entry patients = [ {| fhir.Resource := fhir.PatientResource patientID |} ] ->
    ToRiskServiceCalculationResults (fhirEndpoint +:+ "/Patient/" +:+ patientID) study w1
      = (calcResults, w2) ->
    UpdateRiskAssessmentsAndPies fhirEndpoint patientID calcResults pieCollection
      basisPieURL REDCapRiskServiceConfig w2 = (Some err, w3) ->
    studyFailure w Reconcile err err w3.
End Failures.

(** The FHIR server answers the patient query with patient resources:
    a successful answer with a single entry holds a [*Patient]. *)
Definition subjectsOnly {P : Platform} (S : Services P) : Prop :=
  forall url w resp w1 patients e,
    Do url w = (Ok resp, w1) ->
    http.StatusCode resp = http.StatusOK ->
    http.Decode resp = Ok patients ->
    fhir.Entry patients = [e] ->
    exists patientID, fhir.Resource e = fhir.PatientResource patientID.

(** A result belongs to a study, and carries an error only with a zero
    count. *)
Definition resultOf (study : Study) (r : Result) : Prop :=
  client.StudyID r = ID study
  /\ (Error r <> None -> RiskAssessmentCount r = 0).

(** *** Paging *)

(** The [next] link of a bundle as the mock's patient feed reads it: the
    last link with relation [next] and a URL. *)
Fixpoint nextLink (links : list fhir.BundleLinkComponent) (query : option string)
  : option string :=
  match links with
  | [] => query
  | link :: rest =>
      if String.eqb (fhir.Relation link) "next" && negb (String.eqb (fhir.Url link) "")
      then nextLink rest (Some (fhir.Url link))
      else nextLink rest query
  end.

(** Following the specification's words for the identity resolution: the
    GET is repeated along the [next] links until none is left (within
    [fuel] pages), and the entries of all pages are collected. *)
Fixpoint collectPages {P : Platform} {S : Services P} (fuel : nat) (query : string)
  (w : World) : res (list fhir.BundleEntryComponent) * World :=
  match fuel with
  | O => (Err "too many pages", w)
  | Datatypes.S fuel' =>
      match Do query w with
      | (Err err, w1) => (Err err, w1)
      | (Ok resp, w1) =>
          if negb (http.StatusCode resp =? http.StatusOK) then (Err (http.Status resp), w1)
          else
            match http.Decode resp with
            | Err err => (Err err, w1)
            | Ok bundle =>
                match nextLink (fhir.Link bundle) None with
                | None => (Ok (fhir.Entry bundle), w1)
                | Some next =>
                    match collectPages fuel' next w1 with
                    | (Ok entries, w2) => (Ok (fhir.Entry bundle ++ entries), w2)
                    | (Err err, w2) => (Err err, w2)
                    end
                end
            end
      end
  end.

(** The claim that the resolver decides on all pages: whenever the
    entries collected along the [next] links are not exactly one, the
    study's result carries an error. *)
Definition decidesOnAllPages {P : Platform} {S : Services P} (fuel : nat)
  (fhirEndpoint : string) (study : Study) (pieCollection : Collection)
  (basisPieURL : string) (w : World) : Prop :=
  forall entries w1,
    collectPages fuel (patientQueryURL fhirEndpoint (ID study)) w = (Ok entries, w1) ->
    length entries <> 1%nat ->
    exists r w', postStudy fhirEndpoint study pieCollection basisPieURL w = (Returns r, w')
                 /\ Error r <> None.

Definition withoutLinks (b : fhir.Bundle) : fhir.Bundle :=
  {| fhir.Entry := fhir.Entry b; fhir.Link := [] |}.

Definition responseWithoutLinks (r : http.Response fhir.Bundle) : http.Response fhir.Bundle :=
  {| http.StatusCode := http.StatusCode r; http.Status := http.Status r;
     http.Decode := match http.Decode r with
                    | Ok b => Ok (withoutLinks b)
                    | Err e => Err e
                    end |}.

(** The same collaborators, with every link erased from the bundles the
    FHIR server answers. *)
Definition dropLinks {P : Platform} (S : Services P) : Services P := {|
  Collection := Collection;
  NewRequest := NewRequest;
  Do url w :=
    match Do url w with
    | (Ok resp, w1) => (Ok (responseWithoutLinks resp), w1)
    | (Err e, w1) => (Err e, w1)
    end;
  PostForm := PostForm;
  UpdateRiskAssessmentsAndPies := UpdateRiskAssessmentsAndPies
|}.

(** Reading the kind of a resolution failure off the error message. *)
Definition messageKind (msg : error) : option kind :=
  if String.prefix "Couldn't find patient with Study ID " msg then Some SubjectNotFound
  else if String.prefix "Found too many patients (" msg then Some AmbiguousSubject
  else if String.prefix "Couldn't create HTTP request for querying patient with Study ID: " msg
          || String.prefix "Couldn't query FHIR server for patient with Study ID: " msg
          || String.prefix "Received HTTP " msg
          || String.prefix "Couldn't properly decode results from patient query with Study ID: " msg
       then Some UpstreamUnavailable
  else None.

(** *** The refresh lock *)

Definition b2n (b : bool) : nat := if b then 1%nat else 0%nat.

Section Lock.
Context {P : Platform} {S : Services P}.
Variables (fhirEndpoint redcapEndpoint redcapToken : string).
Variables (pieCollection : Collection) (basisPieURL : string).

Local Abbreviation step' :=
  (step fhirEndpoint redcapEndpoint redcapToken pieCollection basisPieURL).

(** The mutex is locked exactly while one cycle is in flight. *)
Definition lockInvariant (s : Process) : Prop :=
  cyclesInFlight s = b2n (locked s).

(** At most one cycle executes at a time. *)
Definition oneAtATime (s : Process) : Prop :=
  (cyclesInFlight s <= 1)%nat
  /\ (locked s = true <-> cyclesInFlight s = 1%nat).

(** An invocation at the lock stays there while a cycle is in flight,
    and whatever happens it is still there or has entered its cycle:
    it is neither dropped nor rejected. *)
Definition waitingBlocks (s : Process) : Prop :=
  forall s' i inv,
    step' s s' ->
    invocations s !! i = Some inv -> at_ inv = AtLock ->
    (cyclesInFlight s = 1%nat -> invocations s' !! i = Some inv)
    /\ (invocations s' !! i = Some inv
        \/ invocations s' !! i = Some (moveTo inv Fetching)).

(** With no cycle in flight, an invocation at the lock can enter. *)
Definition waitingEnters (s : Process) : Prop :=
  forall i inv,
    invocations s !! i = Some inv -> at_ inv = AtLock ->
    cyclesInFlight s = 0%nat ->
    exists s', step' s s' /\ invocations s' !! i = Some (moveTo inv Fetching).

(** A cycle in flight can take its next step: to the posting, the
    mutex still held, or to its return. *)
Definition cycleProceeds (s : Process) : Prop :=
  forall i inv,
    invocations s !! i = Some inv -> inFlight inv = true ->
    exists s' p,
      step' s s'
      /\ invocations s' !! i = Some (moveTo inv p)
      /\ match p with
         | Posting _ => at_ inv = Fetching /\ locked s' = locked s
         | Returned _ => locked s' = false
         | _ => False
         end.

(** When a cycle returns, however it ends, the mutex is unlocked and
    no cycle is in flight. *)
Definition returnUnlocks (s : Process) : Prop :=
  forall s' i inv out,
    step' s s' ->
    invocations s !! i = Some inv -> inFlight inv = true ->
    invocations s' !! i = Some (moveTo inv (Returned out)) ->
    locked s' = false /\ cyclesInFlight s' = 0%nat.

(** A cycle whose fetch fails returns the error at its next step, and
    that step unlocks the mutex. *)
Definition abortUnlocks (s : Process) : Prop :=
  forall s' i inv err w',
    step' s s' ->
    invocations s !! i = Some inv -> at_ inv = Fetching ->
    GetREDCapData redcapEndpoint redcapToken (world s) = (Err err, w') ->
    invocations s' !! i <> Some inv ->
    invocations s' !! i = Some (moveTo inv (Returned (Returns (Err err))))
    /\ locked s' = false.
End Lock.
End notions.

(** ** Notions for the grouping of records *)

Module grouping.
Import plugin client models.



Definition hasID (k : string) (r : Record_) : bool := String.eqb (StudyIDString r) k.

End grouping.

(** ** Notions for the conversion of records *)

Module converting.
Import plugin client models.

(** The four category scores of a record with the names of their slices,
    in the order [ToPie] parses them. *)
Definition categoryScores (r : Record_) : list (string * string) :=
  [ ("Clinical Risk", ClinicalRisk r);
    ("Functional and Environmental Risk", FunctionalRisk r);
    ("Psychosocial and Mental Health Risk", PsychosocialRisk r);
    ("Utilization Risk", UtilizationRisk r) ]%string.

Definition invalidScore (ns : string * string) : bool :=
  negb (notions.isSome (strconv.Atoi (snd ns))).

(** Slice [p] is the first of the first [n] slices that holds their
    maximal value. *)
Definition firstMaxUpTo (slices : list Slice) (n p : nat) : Prop :=
  (p < n)%nat /\ (p < length slices)%nat
  /\ (forall j, (j < n)%nat -> deref slices j <= deref slices p)
  /\ (forall j, (j < p)%nat -> deref slices j < deref slices p).

(** The date a record contributes to the results of its study. *)
Definition asOfOf (r : Record_) : option time.Time :=
  if notions.convertible r then time.ParseInLocation (RiskFactorDate r) else None.

(** A result as the conversion of a study makes them: its pie refers to
    the patient, has the four slices, and its score points to the first
    maximal one. *)
Definition wellFormedResult (patientURL : string) (res : RiskServiceCalculationResult) : Prop :=
  Patient (Pie_ res) = patientURL
  /\ length (Slices (Pie_ res)) = 4%nat
  /\ exists p, Score res = Some p
               /\ firstMaxUpTo (Slices (Pie_ res)) (length (Slices (Pie_ res))) p.
End converting.

(** ** Notions for the results of a cycle *)

Module summarising.
Import plugin models client.

Definition hasError (r : Result) : bool := notions.isSome (Error r).

(** The sum of the assessment counts of the results. *)
Fixpoint totalCount (results : list Result) : Z :=
  match results with
  | [] => 0
  | r :: rest => RiskAssessmentCount r + totalCount rest
  end.

(** The URL [GetREDCapData] posts the form to. *)
Definition redcapURL (endpoint : string) : string :=
  if gostrings.HasSuffix endpoint "/" then endpoint else endpoint +:+ "/".

(** How far an invocation of the refresh is from its return, in steps. *)
Definition remaining (i : invocation) : nat :=
  match at_ i with
  | AtLock => 3
  | Fetching => 2
  | Posting _ => 1
  | Returned _ => 0
  end.

Fixpoint pending (l : list invocation) : nat :=
  match l with
  | [] => 0
  | i :: l' => remaining i + pending l'
  end.

Definition returned (i : invocation) : Prop := exists out, at_ i = Returned out.
End summarising.

(** ** The refresh route *)

Module routes.
Import plugin models client.

(** What the handler of [POST /refresh] writes to the gin context: the
    abort with the error of the cycle, or the results as JSON, after the
    summary has been logged. *)
Inductive refreshResponse : Type :=
| AbortWithError (code : Z) (err : error)
| ResultsJSON (code : Z) (logged : string) (results : list Result).

Definition StatusInternalServerError : Z := 500.

Section Handler.
Context {P : Platform} {S : Services P}.

(** The handler registered by [RegisterRefreshHandler]. *)
Definition refreshHandler (range : gmap string Study -> list Study)
  (fhirEndpoint redcapEndpoint redcapToken : string)
  (pieCollection : Collection) (basisPieURL : string) (w : World)
  : outcome refreshResponse * World :=
  match RefreshRiskAssessments range fhirEndpoint redcapEndpoint redcapToken
          pieCollection basisPieURL w with
  | (Panics, w') => (Panics, w')
  | (Returns (Err err), w') => (Returns (AbortWithError StatusInternalServerError err), w')
  | (Returns (Ok results), w') =>
      (Returns (ResultsJSON http.StatusOK (LogResultSummary results) results), w')
  end.
End Handler.

(** The order in which a map is visited that the examples use. *)
Definition inKeyOrder (studies : gmap string Study) : list Study :=
  snd <$> map_to_list studies.

(** A process with one invocation from the HTTP handler at the lock. *)
Definition oneCall : Process (P := fixtures.testPlatform) :=
  @Build_Process fixtures.testPlatform false fixtures.world0
    [ {| source := HTTPTrigger; at_ := AtLock |} ].
End routes.

(** ** Hex forms of object identifiers *)

Module hexform.

Definition hexDigit (n : N) : ascii :=
  if (n <? 10)%N then ascii_of_N (48 + n) else ascii_of_N (87 + n).

(** [hex.EncodeToString] on the bytes of a string. *)
Fixpoint EncodeToString (bytes : list ascii) : list ascii :=
  match bytes with
  | [] => []
  | b :: rest =>
      hexDigit (N_of_ascii b / 16) :: hexDigit (N_of_ascii b mod 16) :: EncodeToString rest
  end.

(** [ObjectId.Hex] *)
Definition Hex (id : bson.ObjectId) : string :=
  string_of_list_ascii (EncodeToString (list_ascii_of_string id)).

(** A hex digit in lower case. *)
Definition lowerHex (c : ascii) : ascii :=
  let n := N_of_ascii c in
  if ((65 <=? n) && (n <=? 70))%N then ascii_of_N (n + 32) else c.

Fixpoint lowerHexString (s : string) : string :=
  match s with
  | EmptyString => EmptyString
  | String c s' => String (lowerHex c) (lowerHexString s')
  end.
End hexform.

(** ** Package [main] of the mock service: the generator of records *)

Module mock.
Import plugin client models.

Record patientSummary : Type := {
  SummaryID : string;
  Age : Z;
  ConditionCount : Z;
  MedicationCount : Z
}.

Definition setPerceivedRisk (r : Record_) (v : string) : Record_ := {|
  StudyID := StudyID r; EventName := EventName r; RiskFactorDate := RiskFactorDate r;
  ClinicalRisk := ClinicalRisk r; FunctionalRisk := FunctionalRisk r;
  PsychosocialRisk := PsychosocialRisk r; UtilizationRisk := UtilizationRisk r;
  PerceivedRisk := v |}.

Definition setCategoryRisks (r : Record_) (c f p u : string) : Record_ := {|
  StudyID := StudyID r; EventName := EventName r; RiskFactorDate := RiskFactorDate r;
  ClinicalRisk := c; FunctionalRisk := f; PsychosocialRisk := p; UtilizationRisk := u;
  PerceivedRisk := PerceivedRisk r |}.

(** [populatePerceivedRisk]: the loop over the four category scores, in
    the string order of Go. *)
Definition populatePerceivedRisk (record : Record_) : Record_ :=
  fold_left
    (fun rec risk => if String.ltb (PerceivedRisk rec) risk then setPerceivedRisk rec risk else rec)
    [ClinicalRisk record; FunctionalRisk record; PsychosocialRisk record; UtilizationRisk record]
    record.

(** The [switch] of [nextScore] on the previous score, for the draw [i]. *)
Definition move (previous : string) (i : Z) : string :=
  if String.eqb previous "1" then (if i <? 10 then "2" else previous)
  else if String.eqb previous "2" then
    (if i <? 30 then "1" else if i <? 50 then "3" else previous)
  else if String.eqb previous "3" then
    (if i <? 50 then "2" else if i <? 65 then "4" else previous)
  else if String.eqb previous "4" then (if i <? 50 then "3" else previous)
  else previous.

Section Random.
(** The random source [r]: [draws n] is what the call number [n] of
    [r.Intn(100)] gives; the state of the source is the number of calls
    made. *)
Variable draws : nat -> Z.

Definition Intn (n : nat) : Z * nat := (draws n, S n).

Definition randomishScore (n : nat) : string * nat :=
  let '(i, n') := Intn n in
  (if i <? 5 then "4"%string else if i <? 20 then "3"%string
   else if i <? 50 then "2"%string else "1"%string, n').

(** [nextScore] tries again, by recursion, until the score is within
    [low] and [high]; [fuel] bounds the number of tries, and [None] says
    that it has not returned within them. *)
Fixpoint nextScore (fuel : nat) (previous low high : string) (n : nat)
  : option (string * nat) :=
  match fuel with
  | O => None
  | S fuel' =>
      let '(i, n') := Intn n in
      let next := move previous i in
      if String.ltb next low || String.ltb high next
      then nextScore fuel' previous low high n'
      else Some (next, n')
  end.

Definition populateInitialRecord (p : patientSummary) (record : Record_) (n : nat)
  : Record_ * nat :=
  let total := wrapInt (ConditionCount p + MedicationCount p) in
  let clinical :=
    if total <? 3 then "1"%string else if total <? 6 then "2"%string else "3"%string in
  let '(functional, n1) := randomishScore n in
  let '(psychosocial, n2) := randomishScore n1 in
  let '(utilization, n3) := randomishScore n2 in
  (populatePerceivedRisk (setCategoryRisks record clinical functional psychosocial utilization),
   n3).

(** The bounds of the clinical score of the next records: within one
    point of the initial score, and within 1 and 4. *)
Definition clinicalBounds (initial : Record_) : string * string :=
  let cLowInt := match strconv.Atoi (ClinicalRisk initial) with Some v => v | None => 0 end in
  let cHighInt := cLowInt in
  let cLowInt := if negb (cLowInt =? 1) then wrapInt (cLowInt - 1) else cLowInt in
  let cHighInt := if negb (cHighInt =? 4) then wrapInt (cHighInt + 1) else cHighInt in
  (fmt.Sprint (IInt cLowInt), fmt.Sprint (IInt cHighInt)).

Definition populateNextRecord (p : patientSummary) (record previous initial : Record_)
  (fuel n : nat) : option (Record_ * nat) :=
  let '(cLow, cHigh) := clinicalBounds initial in
  match nextScore fuel (ClinicalRisk previous) cLow cHigh n with
  | None => None
  | Some (clinical, n1) =>
  match nextScore fuel (FunctionalRisk previous) "1" "4" n1 with
  | None => None
  | Some (functional, n2) =>
  match nextScore fuel (PsychosocialRisk previous) "1" "4" n2 with
  | None => None
  | Some (psychosocial, n3) =>
  match nextScore fuel (UtilizationRisk previous) "1" "4" n3 with
  | None => None
  | Some (utilization, n4) =>
      Some (populatePerceivedRisk
              (setCategoryRisks record clinical functional psychosocial utilization), n4)
  end end end end.
End Random.

(** One turn of the loop of [populatePerceivedRisk]. *)
Definition raised (perceived risk : string) : string :=
  if String.ltb perceived risk then risk else perceived.

(** The scores the generator deals in. *)
Definition scores : list string := ["1"; "2"; "3"; "4"]%string.

(** The scores next to a score. *)
Definition neighbours (previous : string) : list string :=
  if String.eqb previous "1" then ["2"]%string
  else if String.eqb previous "2" then ["1"; "3"]%string
  else if String.eqb previous "3" then ["2"; "4"]%string
  else if String.eqb previous "4" then ["3"]%string
  else [].

Definition outside (low high s : string) : bool := String.ltb s low || String.ltb high s.

(** A source that draws 70 every time, and one that draws 5 every time. *)
Definition calm : nat -> Z := fun _ => 70.
Definition restless : nat -> Z := fun _ => 5.

(** What [getPatientSummariesFromFHIR] looks at in the resource of an
    entry: a patient with its ID and birth date, a condition or a
    medication statement with the patient it refers to ([None]: its
    [Patient] pointer is nil), or anything else. *)
Inductive resource : Type :=
| PatientEntry (Id : string) (BirthDate : option time.Time)
| ConditionEntry (Patient : option string)
| MedicationStatementEntry (Patient : option string)
| OtherEntry.

Record bundle : Type := {
  Entry : list resource;
  Link : list fhir.BundleLinkComponent
}.

(** The zero value of [patientSummary], which a map gives for a key it
    does not hold. *)
Definition zeroSummary : patientSummary :=
  {| SummaryID := ""; Age := 0; ConditionCount := 0; MedicationCount := 0 |}.

Definition summaryAt (pMap : gmap string patientSummary) (id : string) : patientSummary :=
  default zeroSummary (pMap !! id).

Definition withID (sum : patientSummary) (id : string) : patientSummary :=
  {| SummaryID := id; Age := Age sum; ConditionCount := ConditionCount sum;
     MedicationCount := MedicationCount sum |}.

Definition withAge (sum : patientSummary) (age : Z) : patientSummary :=
  {| SummaryID := SummaryID sum; Age := age; ConditionCount := ConditionCount sum;
     MedicationCount := MedicationCount sum |}.

Definition withConditionCount (sum : patientSummary) (n : Z) : patientSummary :=
  {| SummaryID := SummaryID sum; Age := Age sum; ConditionCount := n;
     MedicationCount := MedicationCount sum |}.

Definition withMedicationCount (sum : patientSummary) (n : Z) : patientSummary :=
  {| SummaryID := SummaryID sum; Age := Age sum; ConditionCount := ConditionCount sum;
     MedicationCount := n |}.

(** The end of the body of the loop over the entries. *)
Definition keep (pMap : gmap string patientSummary) (sum : patientSummary)
  : gmap string patientSummary :=
  if negb (String.eqb (SummaryID sum) "") then <[SummaryID sum := sum]> pMap else pMap.

(** The loop over the links of a bundle: the query of the next page, and
    whether there is one. *)
Definition nextQuery (query : string) (links : list fhir.BundleLinkComponent) : string * bool :=
  fold_left
    (fun '(q, more) link =>
       if String.eqb (fhir.Relation link) "next" && negb (String.eqb (fhir.Url link) "")
       then (fhir.Url link, true) else (q, more))
    links (query, false).

Definition errPatients (code : Z) (status : string) : error :=
  "Received HTTP " +:+ fmt.verb_d code +:+ " " +:+ status
  +:+ " from FHIR server when querying for patients.".

Definition patientsQuery (fhirEndpoint : string) : string :=
  fhirEndpoint +:+ "/Patient?_revinclude=Condition:patient&_revinclude=MedicationStatement:patient".

Section Summaries.
(** The FHIR server and the clock: [NewRequest] and [Do] as in the
    client, and [approximateAge b], the value of
    [int(time.Since(b).Hours() / (24 * 365))] at the call. *)
Variable World : Type.
Variable NewRequest : string -> string -> option error.
Variable Do : string -> World -> res (http.Response bundle) * World.
Variable approximateAge : time.Time -> Z.

(** The body of the loop over the entries of a bundle.  A condition or a
    medication statement whose [Patient] is nil makes it panic. *)
Definition addEntry (pMap : gmap string patientSummary) (entry : resource)
  : outcome (gmap string patientSummary) :=
  match entry with
  | PatientEntry id birthDate =>
      let sum := withID (summaryAt pMap id) id in
      let sum := match birthDate with
                 | Some b => withAge sum (approximateAge b)
                 | None => sum
                 end in
      Returns (keep pMap sum)
  | ConditionEntry None => Panics
  | ConditionEntry (Some id) =>
      let sum := withID (summaryAt pMap id) id in
      let sum := withConditionCount sum (wrapInt (ConditionCount sum + ConditionCount sum)) in
      Returns (keep pMap sum)
  | MedicationStatementEntry None => Panics
  | MedicationStatementEntry (Some id) =>
      let sum := withID (summaryAt pMap id) id in
      let sum := withMedicationCount sum (wrapInt (MedicationCount sum + MedicationCount sum)) in
      Returns (keep pMap sum)
  | OtherEntry => Returns (keep pMap zeroSummary)
  end.

Fixpoint addEntries (pMap : gmap string patientSummary) (entries : list resource)
  : outcome (gmap string patientSummary) :=
  match entries with
  | [] => Returns pMap
  | entry :: rest =>
      match addEntry pMap entry with
      | Panics => Panics
      | Returns pMap' => addEntries pMap' rest
      end
  end.

(** The loop over the pages; [fuel] bounds the number of pages read, and
    [None] says that the loop has not ended within them. *)
Fixpoint summariesLoop (fuel : nat) (pMap : gmap string patientSummary) (query : string)
  (w : World) : option (outcome (res (gmap string patientSummary)) * World) :=
  match fuel with
  | O => None
  | S fuel' =>
      match NewRequest "GET" query with
      | Some err => Some (Returns (Err err), w)
      | None =>
          let '(r, w1) := Do query w in
          match r with
          | Err err => Some (Returns (Err err), w1)
          | Ok response =>
              if negb (http.StatusCode response =? http.StatusOK)
              then Some (Returns (Err (errPatients (http.StatusCode response)
                                         (http.Status response))), w1)
              else
                match http.Decode response with
                | Err err => Some (Returns (Err err), w1)
                | Ok b =>
                    match addEntries pMap (Entry b) with
                    | Panics => Some (Panics, w1)
                    | Returns pMap' =>
                        let '(query', more) := nextQuery query (Link b) in
                        if more then summariesLoop fuel' pMap' query' w1
                        else Some (Returns (Ok pMap'), w1)
                    end
                end
          end
      end
  end.

Definition getPatientSummariesFromFHIR (fuel : nat) (fhirEndpoint : string) (w : World)
  : option (outcome (res (gmap string patientSummary)) * World) :=
  summariesLoop fuel ∅ (patientsQuery fhirEndpoint) w.
End Summaries.

(** What [getPatientSummariesFromFHIR] keeps of its summaries whatever
    the entries: each is stored under its own ID, which is not empty,
    and its two counts are zero. *)
Definition countless (pMap : gmap string patientSummary) : Prop :=
  forall id sum, pMap !! id = Some sum ->
    SummaryID sum = id /\ id <> ""%string /\ ConditionCount sum = 0 /\ MedicationCount sum = 0.

(** A server with one page, [entries], whatever the query. *)
Definition onePage (entries : list resource) (query : string) (w : unit)
  : res (http.Response bundle) * unit :=
  (Ok {| http.StatusCode := 200; http.Status := "200 OK";
         http.Decode := Ok {| Entry := entries; Link := [] |} |}, w).

(** A server each of whose pages links to a next one. *)
Definition endless (query : string) (w : unit) : res (http.Response bundle) * unit :=
  (Ok {| http.StatusCode := 200; http.Status := "200 OK";
         http.Decode := Ok {| Entry := [];
                              Link := [{| fhir.Relation := "next"; fhir.Url := query |}] |} |},
   w).
End mock.

(** * Properties *)

(** ** Strings *)

Lemma append_assoc (a b c : string) : (a +:+ b) +:+ c = a +:+ (b +:+ c).
Proof.
  induction a as [|ch a IH]; [reflexivity|].
  change (String ch ((a +:+ b) +:+ c) = String ch (a +:+ (b +:+ c))).
  now rewrite IH.
Qed.

Lemma append_empty_r (a : string) : a +:+ "" = a.
Proof.
  induction a as [|ch a IH]; [reflexivity|].
  change (String ch (a +:+ "") = String ch a).
  now rewrite IH.
Qed.

Import notions.





(** ** [Study.AddRecord] *)

Section StudyFacts.
Import plugin models.

Lemma isEmptyString_spec (v : iface) :
  isEmptyString v = true <-> v = IString "".
Proof.
  destruct v as [s| | |]; simpl; try (split; [discriminate | discriminate]).
  rewrite String.eqb_eq. split; [now intros -> | now intros [= ->]].
Qed.

(** C10: a record whose study-identifier field is exactly the empty
    string is appended to any study without an error, and the study's ID
    stays as it was, also when that ID is not empty: the mismatch check
    is skipped for it. *)
Theorem AddRecord_empty_string_id_bypasses_check (s : Study) (r : Record_) :
  StudyID r = IString "" ->
  Study_AddRecord r s = (None, {| ID := ID s; Records := Records s ++ [r] |}).
Proof.
  intros Hr. unfold Study_AddRecord. now rewrite Hr.
Qed.


(** Records with the study's own normalised ID are appended in order. *)
Lemma AddRecord_same_id (s : Study) (r : Record_) :
  StudyID r <> IString "" ->
  StudyIDString r = ID s \/ ID s = ""%string ->
  Study_AddRecord r s
  = (None, {| ID := StudyIDString r; Records := Records s ++ [r] |}).
Proof.
  intros Hr Hid. unfold Study_AddRecord.
  destruct (isEmptyString (StudyID r)) eqn:He.
  { apply isEmptyString_spec in He. contradiction. }
  simpl. destruct (String.eqb_spec (ID s) "") as [E|E]; [reflexivity|].
  destruct Hid as [Hid|Hid]; [|contradiction].
  rewrite <- Hid, String.eqb_refl. reflexivity.
Qed.
End StudyFacts.


Lemma AddRecord_empty_string_id_witness :
  models.Study_AddRecord (fixtures.withStudyID fixtures.record1 (IString "")) fixtures.study1
  = (None, {| models.ID := "1";
              models.Records := [fixtures.record0; fixtures.record1;
                                 fixtures.withStudyID fixtures.record1 (IString "")] |}).
Proof.
  apply (AddRecord_empty_string_id_bypasses_check fixtures.study1
           (fixtures.withStudyID fixtures.record1 (IString ""))).
  reflexivity.
Defined.


(** ** Conversion of records *)

Section ConversionFacts.
Import plugin models.
Context {P : Platform}.

Lemma convertible_complete (r : Record_) :
  convertible r = true -> IsRiskFactorsComplete r = true.
Proof.
  unfold convertible. intros H.
  do 5 (apply andb_prop in H; destruct H as [H _]). exact H.
Qed.

(** A record converts exactly when it is [convertible], whatever the world. *)
Lemma ToRiskServiceCalculationResult_isOk (patientURL : string) (r : Record_) (w : World) :
  isOk (fst (ToRiskServiceCalculationResult patientURL r w)) = convertible r.
Proof.
  unfold ToRiskServiceCalculationResult, ToPie, convertible, newSlice, RiskFactorDateTime.
  destruct (IsRiskFactorsComplete r); simpl; [|reflexivity].
  destruct (NewObjectId w) as [id w1]. destruct (Now w1) as [now w2].
  destruct (strconv.Atoi (ClinicalRisk r)); simpl; [|reflexivity].
  destruct (strconv.Atoi (FunctionalRisk r)); simpl; [|reflexivity].
  destruct (strconv.Atoi (PsychosocialRisk r)); simpl; [|reflexivity].
  destruct (strconv.Atoi (UtilizationRisk r)); simpl; [|reflexivity].
  destruct (time.ParseInLocation (RiskFactorDate r)); reflexivity.
Qed.

Lemma convertLoop_length (patientURL : string) (records : list Record_) :
  forall (results : list RiskServiceCalculationResult) (w : World),
    length (fst (convertLoop patientURL records results w))
    = (length results + length (List.filter convertible records))%nat.
Proof.
  induction records as [|r rest IH]; intros results w; simpl.
  - lia.
  - pose proof (ToRiskServiceCalculationResult_isOk patientURL r w) as Hok.
    destruct (ToRiskServiceCalculationResult patientURL r w) as [[result|e] w'];
      simpl in Hok; rewrite <- Hok; rewrite IH.
    + rewrite length_app. simpl. lia.
    + simpl. lia.
Qed.

(** C3, as amended: the results of a study are as many as its records
    that are complete and well formed (the four category scores parse as
    integers, the date parses), and they are ascending by [AsOf]; the
    other records, incomplete or malformed, are dropped. *)
Theorem ToRiskServiceCalculationResults_count_sorted
  (C : SortContract P) (patientURL : string) (s : Study) (w : World) :
  length (fst (ToRiskServiceCalculationResults patientURL s w))
  = length (List.filter convertible (Records s))
  /\ Sorted asOfLe (fst (ToRiskServiceCalculationResults patientURL s w)).
Proof.
  unfold ToRiskServiceCalculationResults.
  pose proof (convertLoop_length patientURL (Records s) [] w) as Hlen.
  destruct (convertLoop patientURL (Records s) [] w) as [results w']. simpl in *.
  split.
  - rewrite (Permutation_length (sort_perm results)). exact Hlen.
  - apply sort_sorted.
Qed.

(** C5: for a complete record whose four category scores parse as
    integers and whose date parses, the conversion succeeds, the slices
    carry the four values in category order, and [Score] points to the
    first slice that holds their maximum. *)
Theorem score_points_to_first_maximal_slice
  (patientURL : string) (r : Record_) (w : World) (c f p u : Z) (t : time.Time) :
  IsRiskFactorsComplete r = true ->
  strconv.Atoi (ClinicalRisk r) = Some c ->
  strconv.Atoi (FunctionalRisk r) = Some f ->
  strconv.Atoi (PsychosocialRisk r) = Some p ->
  strconv.Atoi (UtilizationRisk r) = Some u ->
  time.ParseInLocation (RiskFactorDate r) = Some t ->
  exists result w' i,
    ToRiskServiceCalculationResult patientURL r w = (Ok result, w')
    /\ AsOf result = t
    /\ map Value (Slices (Pie_ result)) = [c; f; p; u]
    /\ Score result = Some i
    /\ ScoreValue result = Some (Z.max c (Z.max f (Z.max p u)))
    /\ forall j, (j < i)%nat ->
         deref (Slices (Pie_ result)) j < deref (Slices (Pie_ result)) i.
Proof.
  intros Hc Hcr Hfr Hpr Hur Ht.
  unfold ToRiskServiceCalculationResult, ToPie, newSlice, RiskFactorDateTime, ScoreValue.
  rewrite Hc, Hcr, Hfr, Hpr, Hur, Ht. simpl negb. cbv iota.
  destruct (NewObjectId w) as [id w1]. destruct (Now w1) as [now w2].
  cbn [scoreLoop Slices deref Value lookup list_lookup].
  destruct (Z.ltb_spec c f) as [H1|H1];
    cbn [deref Value lookup list_lookup];
    [destruct (Z.ltb_spec f p) as [H2|H2] | destruct (Z.ltb_spec c p) as [H2|H2]];
    cbn [deref Value lookup list_lookup];
    match goal with
    | |- context [Z.ltb ?a ?b] => destruct (Z.ltb_spec a b) as [H3|H3]
    end;
    (eexists _, _, _; split; [reflexivity|];
     cbn [AsOf Score Pie_ Slices map Value deref lookup list_lookup];
     repeat split; try reflexivity;
     [ f_equal; lia
     | intros j Hj;
       destruct j as [|[|[|[|j]]]]; cbn [deref Value lookup list_lookup]; lia ]).
Qed.
End ConversionFacts.

(** The insertion sort of the test platform honours the contract of
    [SortResultsByAsOfDate]. *)
Section InsertionSort.
Import plugin fixtures.

Lemma insertByAsOf_perm (x : RiskServiceCalculationResult) (l : list RiskServiceCalculationResult) :
  Permutation (insertByAsOf x l) (x :: l).
Proof.
  induction l as [|y l IH]; simpl.
  - apply Permutation_refl.
  - destruct (AsOf x <=? AsOf y).
    + apply Permutation_refl.
    + eapply perm_trans; [apply perm_skip, IH | apply perm_swap].
Qed.

Lemma sortByAsOf_perm (l : list RiskServiceCalculationResult) :
  Permutation (sortByAsOf l) l.
Proof.
  induction l as [|x l IH]; simpl.
  - apply perm_nil.
  - eapply perm_trans; [apply insertByAsOf_perm | apply perm_skip, IH].
Qed.

Lemma insertByAsOf_hd (x y : RiskServiceCalculationResult) (l : list RiskServiceCalculationResult) :
  asOfLe y x -> HdRel asOfLe y l -> HdRel asOfLe y (insertByAsOf x l).
Proof.
  intros Hyx Hhd. destruct l as [|z l]; simpl.
  - now constructor.
  - destruct (AsOf x <=? AsOf z); constructor; [exact Hyx | now inversion Hhd].
Qed.

Lemma insertByAsOf_sorted (x : RiskServiceCalculationResult) (l : list RiskServiceCalculationResult) :
  Sorted asOfLe l -> Sorted asOfLe (insertByAsOf x l).
Proof.
  induction 1 as [|y l Hs IH Hhd]; simpl.
  - repeat constructor.
  - destruct (Z.leb_spec (AsOf x) (AsOf y)) as [Hle|Hgt].
    + constructor; [now constructor | now constructor].
    + constructor; [exact IH|].
      apply insertByAsOf_hd; [unfold asOfLe; lia | exact Hhd].
Qed.

Lemma sortByAsOf_sorted (l : list RiskServiceCalculationResult) :
  Sorted asOfLe (sortByAsOf l).
Proof.
  induction l as [|x l IH]; simpl; [constructor | now apply insertByAsOf_sorted].
Qed.

Lemma testPlatform_sorts : SortContract testPlatform.
Proof. split; [exact sortByAsOf_perm | exact sortByAsOf_sorted]. Qed.
End InsertionSort.

(** C3 as the specification words it fails on a study with two complete
    records of which one has a clinical score that is not a number: two
    complete records, one result. *)
Lemma complete_records_counterexample :
  let s := {| models.ID := "1";
              models.Records := [fixtures.record0;
                                 fixtures.withClinicalRisk fixtures.record1 "high"] |} in
  length (List.filter models.IsRiskFactorsComplete (models.Records s)) = 2%nat
  /\ length (fst (models.ToRiskServiceCalculationResults (P := fixtures.testPlatform) "http://fhir/Patient/1" s
                    fixtures.world0)) = 1%nat.
Proof. split; reflexivity. Qed.

Lemma ToRiskServiceCalculationResults_witness :
  length (fst (models.ToRiskServiceCalculationResults (P := fixtures.testPlatform) "http://fhir/Patient/1"
                 {| models.ID := "1";
                    models.Records := [fixtures.record1;
                                       fixtures.withFunctionalRisk fixtures.record1 "";
                                       fixtures.record0] |}
                 fixtures.world0)) = 2%nat
  /\ Sorted plugin.asOfLe
       (fst (models.ToRiskServiceCalculationResults (P := fixtures.testPlatform) "http://fhir/Patient/1"
               {| models.ID := "1";
                  models.Records := [fixtures.record1;
                                     fixtures.withFunctionalRisk fixtures.record1 "";
                                     fixtures.record0] |}
               fixtures.world0)).
Proof.
  exact (ToRiskServiceCalculationResults_count_sorted (P := fixtures.testPlatform)
           testPlatform_sorts
           "http://fhir/Patient/1"
           {| models.ID := "1";
              models.Records := [fixtures.record1;
                                 fixtures.withFunctionalRisk fixtures.record1 "";
                                 fixtures.record0] |}
           fixtures.world0).
Defined.

Lemma score_points_to_first_maximal_slice_witness :
  exists result w' i,
    models.ToRiskServiceCalculationResult (P := fixtures.testPlatform) "http://fhir/Patient/1" fixtures.record0
      fixtures.world0 = (Ok result, w')
    /\ plugin.AsOf result = time.Date 2015 12 7
    /\ map plugin.Value (plugin.Slices (plugin.Pie_ result)) = [3; 2; 1; 3]
    /\ plugin.Score result = Some i
    /\ plugin.ScoreValue result = Some 3
    /\ forall j, (j < i)%nat ->
         plugin.deref (plugin.Slices (plugin.Pie_ result)) j
         < plugin.deref (plugin.Slices (plugin.Pie_ result)) i.
Proof.
  apply (score_points_to_first_maximal_slice (P := fixtures.testPlatform) "http://fhir/Patient/1" fixtures.record0
           fixtures.world0 3 2 1 3 (time.Date 2015 12 7)); reflexivity.
Defined.

(** On the first fixture record the clinical and the utilization score tie
    at 3, and [Score] points to the clinical slice, the first of the two. *)
Example record0_score_points_to_clinical_slice :
  exists result w',
    models.ToRiskServiceCalculationResult (P := fixtures.testPlatform) "http://fhir/Patient/1" fixtures.record0
      fixtures.world0 = (Ok result, w')
    /\ plugin.Score result = Some 0%nat.
Proof. eexists _, _. split; reflexivity. Qed.

(** ** The per-study loop of [PostRiskAssessments] *)

Section PostingFacts.
Import plugin client models.
Context {P : Platform} {S : Services P}.
Variables (fhirEndpoint : string) (pieCollection : Collection) (basisPieURL : string).

Local Abbreviation postStudy' := (fun study => postStudy fhirEndpoint study pieCollection basisPieURL).
Local Abbreviation postLoop' := (fun order => postLoop fhirEndpoint order pieCollection basisPieURL).
Local Abbreviation Post := (fun order => PostRiskAssessments fhirEndpoint order pieCollection basisPieURL).

(** A failure at any stage is what the loop body returns for the study. *)
Lemma postStudy_failure (study : Study) (w w' : World) (st : stage) (detail : string)
  (err : error) :
  studyFailure fhirEndpoint study pieCollection basisPieURL w st detail err w' ->
  exists r,
    postStudy' study w = (Returns r, w')
    /\ client.StudyID r = ID study
    /\ Error r = Some err
    /\ RiskAssessmentCount r = 0
    /\ (st <> Reconcile -> r = unresolved study err).
Proof.
  intros H. unfold postStudy.
  destruct H as [cause Hn | cause w1 Hn Hd | resp w1 Hn Hd Hs | resp cause w1 Hn Hd Hs Hdec
                | resp patients w1 Hn Hd Hs Hdec He | resp patients w1 Hn Hd Hs Hdec He
                | resp patients patientID calcResults err w1 w2 w3 Hn Hd Hs Hdec He Hc Hu];
    rewrite Hn; try rewrite Hd.
  - eexists. repeat split; reflexivity.
  - eexists. repeat split; reflexivity.
  - destruct (Z.eqb_spec (http.StatusCode resp) http.StatusOK) as [E|_]; [contradiction|].
    eexists. repeat split; reflexivity.
  - rewrite Hs, Hdec. eexists. repeat split; reflexivity.
  - rewrite Hs, Hdec, He. eexists. repeat split; reflexivity.
  - rewrite Hs, Hdec. simpl negb. cbv iota.
    destruct (Nat.eqb_spec (length (fhir.Entry patients)) 0) as [E|_]; [lia|].
    destruct (Nat.ltb_spec 1 (length (fhir.Entry patients))) as [_|E]; [|lia].
    eexists. repeat split; reflexivity.
  - rewrite Hs, Hdec, He. simpl. rewrite Hc, Hu.
    eexists. repeat split; try reflexivity. intros Hst. now contradiction Hst.
Qed.

(** When the server answers with patient resources, the loop body
    returns a result for the study, whatever else happens. *)
Lemma postStudy_total (study : Study) (w : World) :
  subjectsOnly S ->
  exists r w', postStudy' study w = (Returns r, w') /\ resultOf study r.
Proof.
  intros Hsub. unfold postStudy, resultOf.
  destruct (NewRequest "GET" _) as [cause|].
  { eexists _, _. split; [reflexivity|]. split; reflexivity. }
  destruct (Do _ w) as [[resp|cause] w1] eqn:Hd.
  2:{ eexists _, _. split; [reflexivity|]. split; reflexivity. }
  destruct (Z.eqb_spec (http.StatusCode resp) http.StatusOK) as [Hs|Hs]; simpl negb; cbv iota.
  2:{ eexists _, _. split; [reflexivity|]. split; reflexivity. }
  destruct (http.Decode resp) as [patients|cause] eqn:Hdec.
  2:{ eexists _, _. split; [reflexivity|]. split; reflexivity. }
  destruct (Nat.eqb_spec (length (fhir.Entry patients)) 0) as [E0|E0].
  { eexists _, _. split; [reflexivity|]. split; reflexivity. }
  destruct (Nat.ltb_spec 1 (length (fhir.Entry patients))) as [E1|E1].
  { eexists _, _. split; [reflexivity|]. split; reflexivity. }
  destruct (fhir.Entry patients) as [|e [|e' rest]] eqn:He; simpl in E0, E1; try lia.
  destruct (Hsub _ _ _ _ _ _ Hd Hs Hdec He) as [patientID Hp]. rewrite Hp.
  destruct (ToRiskServiceCalculationResults _ study w1) as [calcResults w2].
  destruct (UpdateRiskAssessmentsAndPies _ _ _ _ _ _ w2) as [[err|] w3].
  - eexists _, _. split; [reflexivity|]. split; reflexivity.
  - eexists _, _. split; [reflexivity|]. split; [reflexivity|].
    simpl. intros Hne. now contradiction Hne.
Qed.

(** The results gathered so far are kept in front of the later ones. *)
Lemma postLoop_results (order : list Study) :
  forall (results : list Result) (w : World),
    postLoop' order results w
    = match postLoop' order [] w with
      | (Returns rs, w') => (Returns (results ++ rs), w')
      | (Panics, w') => (Panics, w')
      end.
Proof.
  induction order as [|study rest IH]; intros results w; simpl.
  - now rewrite app_nil_r.
  - destruct (postStudy fhirEndpoint study pieCollection basisPieURL w) as [[r|] w1];
      [|reflexivity].
    rewrite (IH (results ++ [r])), (IH ([] ++ [r])).
    destruct (postLoop fhirEndpoint rest pieCollection basisPieURL [] w1) as [[rs|] w2];
      [|reflexivity].
    now rewrite <- app_assoc.
Qed.



Lemma PostRiskAssessments_cons (study : Study) (after : list Study) (w : World) :
  Post (study :: after) w
  = match postStudy' study w with
    | (Returns r, w1) =>
        match Post after w1 with
        | (Returns rs, w2) => (Returns (r :: rs), w2)
        | (Panics, w2) => (Panics, w2)
        end
    | (Panics, w1) => (Panics, w1)
    end.
Proof.
  unfold PostRiskAssessments. simpl.
  destruct (postStudy fhirEndpoint study pieCollection basisPieURL w) as [[r|] w1];
    [|reflexivity].
  apply (postLoop_results after [r] w1).
Qed.

(** When the server answers with patient resources, the loop returns,
    with one result for each study it visited, in the order of the visit. *)
Lemma PostRiskAssessments_total (order : list Study) :
  subjectsOnly S ->
  forall w, exists rs w', Post order w = (Returns rs, w') /\ Forall2 resultOf order rs.
Proof.
  intros Hsub. induction order as [|study rest IH]; intros w.
  - exists [], w. split; [reflexivity | constructor].
  - rewrite PostRiskAssessments_cons.
    destruct (postStudy_total study w Hsub) as (r & w1 & Hr & Hof). rewrite Hr.
    destruct (IH w1) as (rs & w2 & Hrs & Hall). rewrite Hrs.
    exists (r :: rs), w2. split; [reflexivity | now constructor].
Qed.



End PostingFacts.

(** ** The identity resolution inside the loop body *)

Lemma names_head (x rest : string) : names (x +:+ rest) x.
Proof. exists ""%string, rest. reflexivity. Qed.

Lemma names_refl (x : string) : names x x.
Proof. exists ""%string, ""%string. change (x = x +:+ ""). now rewrite append_empty_r. Qed.

Lemma names_skip (a rest x : string) : names rest x -> names (a +:+ rest) x.
Proof.
  intros (pre & post & ->). exists (a +:+ pre), post. now rewrite append_assoc.
Qed.

Lemma prefix_append (a b : string) : String.prefix a (a +:+ b) = true.
Proof.
  induction a as [|c a IH]; [now destruct b|].
  change (String.prefix (String c a) (String c (a +:+ b)) = true).
  simpl. destruct (ascii_dec c c) as [_|Hne]; [exact IH | now contradiction Hne].
Qed.

Ltac find_name :=
  repeat first [ apply names_refl | apply names_head | apply names_skip ].

Section ResolutionFacts.
Import plugin client models.
Context {P : Platform} {S : Services P}.
Variables (fhirEndpoint : string) (pieCollection : Collection) (basisPieURL : string).

(** The error of a failed resolution names the study ID and carries
    what the collaborator reported. *)
Lemma resolution_error_names (study : Study) (w w' : World) (st : stage)
  (detail : string) (err : error) :
  studyFailure fhirEndpoint study pieCollection basisPieURL w st detail err w' ->
  st <> Reconcile ->
  names err (ID study) /\ names err detail.
Proof.
  intros H Hst.
  destruct H; try (now contradiction Hst);
    unfold errCreateRequest, errQuery, errStatus, errDecode, errNotFound, errTooMany;
    (split; [find_name|]); try (now find_name).
  - apply names_skip.
    rewrite <- (append_assoc " " (http.Status resp)).
    rewrite <- (append_assoc (fmt.verb_d (http.StatusCode resp))).
    apply names_head.
  - exists ""%string. eexists. reflexivity.
Qed.

(** The kind of a failed resolution can be read off its error. *)
Lemma resolution_error_kind (study : Study) (w w' : World) (st : stage)
  (detail : string) (err : error) :
  studyFailure fhirEndpoint study pieCollection basisPieURL w st detail err w' ->
  st <> Reconcile ->
  messageKind err = kindOf st.
Proof.
  intros H Hst.
  destruct H; try (now contradiction Hst);
    unfold messageKind, errCreateRequest, errQuery, errStatus, errDecode, errNotFound,
      errTooMany.
  - rewrite (prefix_append "Couldn't create HTTP request for querying patient with Study ID: ").
    reflexivity.
  - rewrite (prefix_append "Couldn't query FHIR server for patient with Study ID: ").
    reflexivity.
  - rewrite (prefix_append "Received HTTP "). reflexivity.
  - rewrite (prefix_append "Couldn't properly decode results from patient query with Study ID: ").
    reflexivity.
  - rewrite (prefix_append "Couldn't find patient with Study ID "). reflexivity.
  - rewrite (prefix_append "Found too many patients ("). reflexivity.
Qed.

(** C6: a failed identity resolution puts into the study's result (no
    patient ID, zero count) an error of its stage: no match, several
    matches, or a failure of the request, the transport, the status or
    the decoding.  The error names the study ID and carries the count
    or the cause, and its kind (subject not found, ambiguous subject,
    upstream unavailable) can be read off it, so that resolutions that
    fail in different kinds never give the same error. *)
Theorem resolution_failures_are_distinguishable (study : Study) (w w' : World)
  (st : stage) (detail : string) (err : error) (k : kind) :
  studyFailure fhirEndpoint study pieCollection basisPieURL w st detail err w' ->
  kindOf st = Some k ->
  postStudy fhirEndpoint study pieCollection basisPieURL w
    = (Returns (unresolved study err), w')
  /\ names err (ID study)
  /\ names err detail
  /\ messageKind err = Some k
  /\ forall study2 w2 w2' st2 detail2 err2 k2,
       studyFailure fhirEndpoint study2 pieCollection basisPieURL w2 st2 detail2 err2 w2' ->
       kindOf st2 = Some k2 ->
       k <> k2 -> err <> err2.
Proof.
  intros Hfail Hk.
  assert (Hst : st <> Reconcile) by (intros ->; discriminate).
  destruct (postStudy_failure fhirEndpoint pieCollection basisPieURL study w w' st detail err
              Hfail) as (r & Hr & _ & _ & _ & Hun).
  destruct (resolution_error_names study w w' st detail err Hfail Hst) as [Hid Hdetail].
  pose proof (resolution_error_kind study w w' st detail err Hfail Hst) as Hkind.
  rewrite Hk in Hkind.
  repeat split; try assumption.
  - rewrite Hr, (Hun Hst). reflexivity.
  - intros study2 w2 w2' st2 detail2 err2 k2 Hfail2 Hk2 Hne Heq.
    assert (Hst2 : st2 <> Reconcile) by (intros ->; discriminate).
    pose proof (resolution_error_kind study2 w2 w2' st2 detail2 err2 Hfail2 Hst2) as Hkind2.
    rewrite Hk2, <- Heq, Hkind in Hkind2. congruence.
Qed.

(** C7, as amended: the resolver sends one GET for the patient query
    and decides on the entries of the page it is answered.  The links
    of the bundle are never read: erasing them from every answer of the
    server changes nothing, and a first page with a single patient
    resolves to that patient whatever links it has. *)
Theorem resolver_decides_on_first_page (study : Study) (w : World) :
  postStudy (S := dropLinks S) fhirEndpoint study pieCollection basisPieURL w
  = postStudy (S := S) fhirEndpoint study pieCollection basisPieURL w
  /\ forall resp w1 patients patientID,
       NewRequest "GET" (patientQueryURL fhirEndpoint (ID study)) = None ->
       Do (patientQueryURL fhirEndpoint (ID study)) w = (Ok resp, w1) ->
       http.StatusCode resp = http.StatusOK ->
       http.Decode resp = Ok patients ->
       fhir.Entry patients = [ {| fhir.Resource := fhir.PatientResource patientID |} ] ->
       exists r w',
         postStudy fhirEndpoint study pieCollection basisPieURL w = (Returns r, w')
         /\ FHIRPatientID r = patientID.
Proof.
  split.
  - unfold postStudy. simpl.
    destruct (NewRequest "GET" _) as [cause|]; [reflexivity|].
    destruct (Do _ w) as [[resp|cause] w1]; [|reflexivity].
    simpl. destruct (negb (http.StatusCode resp =? http.StatusOK)); [reflexivity|].
    destruct (http.Decode resp) as [patients|cause]; reflexivity.
  - intros resp w1 patients patientID Hn Hd Hs Hdec He.
    unfold postStudy. rewrite Hn, Hd, Hs, Hdec, He. simpl.
    destruct (ToRiskServiceCalculationResults _ study w1) as [calcResults w2].
    destruct (UpdateRiskAssessmentsAndPies _ _ _ _ _ _ w2) as [[err|] w3];
      eexists _, _; split; reflexivity.
Qed.
End ResolutionFacts.

(** ** The loop on the servers of the client tests *)

Lemma lookupPage_cases (url : string)
  (l : list (string * res (http.Response fhir.Bundle))) :
  fixtures.lookupPage url l = fixtures.lookupPage url []
  \/ exists u, In (u, fixtures.lookupPage url l) l.
Proof.
  induction l as [|[u r] l IH]; [now left|]. simpl.
  destruct (String.eqb u url).
  - right. exists u. now left.
  - destruct IH as [IH|[u' IH]]; [now left|]. right. exists u'. now right.
Qed.

Lemma twoPatients_subjectsOnly : subjectsOnly (fixtures.testServices fixtures.twoPatients).
Proof.
  intros url w resp w1 patients e Hd Hs Hdec He.
  assert (Hresp : fixtures.lookupPage url (fixtures.pages fixtures.twoPatients) = Ok resp)
    by exact (f_equal fst Hd).
  destruct (lookupPage_cases url (fixtures.pages fixtures.twoPatients)) as [H|[u H]];
    rewrite Hresp in H.
  - injection H as ->. discriminate Hdec.
  - simpl in H. destruct H as [H|[H|[H|[]]]];
      injection H as _ <-; injection Hdec as <-; simpl in He; try discriminate;
      injection He as <-; eexists; reflexivity.
Qed.


(** The client test with an unfound study ID: the study FOO has its error
    and a zero count, its siblings their assessments. *)
Example PostRiskAssessments_with_unfound_study :
  fst (client.PostRiskAssessments (S := fixtures.testServices fixtures.twoPatients)
         "http://fhir" [fixtures.study1; fixtures.studyFOO; fixtures.studyA]
         tt "http://riskservice/pies" fixtures.world0)
  = client.Returns
      [ fixtures.resultStudy1;
        {| client.StudyID := "FOO"; client.FHIRPatientID := "";
           client.RiskAssessmentCount := 0;
           client.Error := Some "Couldn't find patient with Study ID FOO"%string |};
        {| client.StudyID := "a"; client.FHIRPatientID := "56fd63cdac1c5d77f6f695a2";
           client.RiskAssessmentCount := 1; client.Error := None |} ].
Proof. reflexivity. Qed.


Lemma resolution_failures_are_distinguishable_witness :
  client.postStudy (S := fixtures.testServices fixtures.twoPatients)
    "http://fhir" fixtures.studyFOO tt "http://riskservice/pies" fixtures.afterStudy1
  = (client.Returns (unresolved fixtures.studyFOO (client.errNotFound "FOO")),
     fixtures.afterStudyFOO)
  /\ names (client.errNotFound "FOO") "FOO"
  /\ names (client.errNotFound "FOO") ""
  /\ messageKind (client.errNotFound "FOO") = Some SubjectNotFound
  /\ forall study2 w2 w2' st2 detail2 err2 k2,
       studyFailure (S := fixtures.testServices fixtures.twoPatients)
         "http://fhir" study2 tt "http://riskservice/pies" w2 st2 detail2 err2 w2' ->
       kindOf st2 = Some k2 ->
       SubjectNotFound <> k2 -> client.errNotFound "FOO" <> err2.
Proof.
  apply (resolution_failures_are_distinguishable
           (S := fixtures.testServices fixtures.twoPatients)
           "http://fhir" tt "http://riskservice/pies" fixtures.studyFOO
           fixtures.afterStudy1 fixtures.afterStudyFOO NoMatch "" (client.errNotFound "FOO")
           SubjectNotFound).
  - eapply fail_no_match; reflexivity.
  - reflexivity.
Defined.

(** ** A server that pages its answers *)

(** C7 as the specification words it fails on the paging server: along
    the [next] link two subjects match the study ID 7, yet the study is
    resolved to the patient of the first page, and the second page is
    never requested. *)
Lemma pagination_counterexample :
  ~ decidesOnAllPages (S := fixtures.testServices fixtures.pagedServer) 5
      "http://fhir" fixtures.study7 tt "http://riskservice/pies" fixtures.world0
  /\ exists r w',
       client.postStudy (S := fixtures.testServices fixtures.pagedServer)
         "http://fhir" fixtures.study7 tt "http://riskservice/pies" fixtures.world0
       = (client.Returns r, w')
       /\ client.FHIRPatientID r = "p1"%string
       /\ client.Error r = None
       /\ fixtures.requests w' = ["http://fhir/Patient?identifier=7"%string].
Proof.
  split.
  - intros H.
    destruct (H [fixtures.patientEntry "p1"; fixtures.patientEntry "p2"]
                {| fixtures.issued := 0; fixtures.clock := 1460000000;
                   fixtures.requests := ["http://fhir/Patient?identifier=7"%string;
                                         "http://fhir/Patient?identifier=7&_offset=1"%string] |}
                eq_refl ltac:(discriminate))
      as (r & w' & Hr & Herr).
    vm_compute in Hr. injection Hr as <- _. now apply Herr.
  - eexists _, _. split; [reflexivity|]. repeat split.
Qed.

Lemma resolver_decides_on_first_page_witness :
  client.postStudy (S := dropLinks (fixtures.testServices fixtures.pagedServer))
    "http://fhir" fixtures.study7 tt "http://riskservice/pies" fixtures.world0
  = client.postStudy (S := fixtures.testServices fixtures.pagedServer)
      "http://fhir" fixtures.study7 tt "http://riskservice/pies" fixtures.world0
  /\ exists r w',
       client.postStudy (S := fixtures.testServices fixtures.pagedServer)
         "http://fhir" fixtures.study7 tt "http://riskservice/pies" fixtures.world0
       = (client.Returns r, w')
       /\ client.FHIRPatientID r = "p1"%string.
Proof.
  destruct (resolver_decides_on_first_page
              (S := fixtures.testServices fixtures.pagedServer)
              "http://fhir" tt "http://riskservice/pies" fixtures.study7 fixtures.world0)
    as [Hsame Hfirst].
  split; [exact Hsame|].
  eapply Hfirst; reflexivity.
Defined.

(** ** The pie handler *)

Section PieHandlerFacts.
Import plugin server.

Lemma DecodeString_length (bytes : list ascii) :
  forall l, DecodeString l = Some bytes -> length l = (2 * length bytes)%nat.
Proof.
  induction bytes as [|x bytes IH]; intros [|a [|b rest]] H; simpl in H;
    try discriminate; try reflexivity.
  - destruct (fromHexChar a), (fromHexChar b), (DecodeString rest); discriminate.
  - destruct (fromHexChar a), (fromHexChar b), (DecodeString rest) as [bs|] eqn:Hrest;
      try discriminate.
    injection H as _ ->. simpl. rewrite (IH rest Hrest). lia.
Qed.

Lemma length_list_ascii (s : string) : length (list_ascii_of_string s) = String.length s.
Proof. induction s as [|c s IH]; simpl; [reflexivity | now rewrite IH]. Qed.

(** An identifier that passes [IsObjectIdHex] converts without panic. *)
Lemma IsObjectIdHex_ObjectIdHex (id : string) :
  IsObjectIdHex id = true -> exists oid, ObjectIdHex id = Some oid.
Proof.
  unfold IsObjectIdHex, ObjectIdHex. intros H.
  apply andb_prop in H. destruct H as [Hlen Hdec].
  destruct (DecodeString (list_ascii_of_string id)) as [bytes|] eqn:Hd; [|discriminate].
  apply DecodeString_length in Hd. rewrite length_list_ascii in Hd.
  apply Nat.eqb_eq in Hlen.
  assert (Hb : length bytes = 12%nat) by lia.
  rewrite Hb. simpl. eexists. reflexivity.
Qed.

(** C9, as amended: an identifier that is not the hex form of a BSON
    object ID is answered with a bad request (400) and a message; a
    well-formed identifier with no stored pie is answered not found
    (404); a well-formed identifier with a stored pie is answered with
    that pie (200). *)
Theorem pieHandler_responses (pieCollection : gmap bson.ObjectId Pie) (id : string) :
  (IsObjectIdHex id = false ->
   pieHandler pieCollection id
   = client.Returns (String_ http.StatusBadRequest
                       "Bad ID format for requested Pie. Should be a BSON Id"))
  /\ (IsObjectIdHex id = true ->
      exists oid,
        ObjectIdHex id = Some oid
        /\ (pieCollection !! oid = None ->
            pieHandler pieCollection id = client.Returns (Status http.StatusNotFound))
        /\ (forall pie, pieCollection !! oid = Some pie ->
            pieHandler pieCollection id = client.Returns (JSON http.StatusOK pie))).
Proof.
  unfold pieHandler. split; intros H; rewrite H.
  - reflexivity.
  - destruct (IsObjectIdHex_ObjectIdHex id H) as [oid Hoid]. rewrite Hoid.
    exists oid. split; [reflexivity|]. split.
    + now intros ->.
    + now intros pie ->.
Qed.
End PieHandlerFacts.

(** C9 as the specification words it fails on a malformed identifier: the
    handler answers 400, which is not the not-found signal. *)
Lemma malformed_pie_id_counterexample :
  server.IsObjectIdHex "not-a-bson-id" = false
  /\ exists r,
       server.pieHandler fixtures.pies "not-a-bson-id" = client.Returns r
       /\ server.code r <> http.StatusNotFound.
Proof.
  split; [reflexivity|]. eexists. split; [reflexivity|]. discriminate.
Qed.

Lemma pieHandler_responses_witness :
  server.pieHandler fixtures.pies "not-a-bson-id"
  = client.Returns (server.String_ http.StatusBadRequest
                      "Bad ID format for requested Pie. Should be a BSON Id")
  /\ server.pieHandler fixtures.pies "56fd63cdac1c5d77f6f695a4"
     = client.Returns (server.Status http.StatusNotFound)
  /\ server.pieHandler fixtures.pies fixtures.storedPieHex
     = client.Returns (server.JSON http.StatusOK fixtures.storedPie).
Proof.
  split; [|split].
  - apply (pieHandler_responses fixtures.pies "not-a-bson-id"). reflexivity.
  - destruct (pieHandler_responses fixtures.pies "56fd63cdac1c5d77f6f695a4") as [_ H].
    destruct (H eq_refl) as (oid & Hoid & Hnone & _).
    apply Hnone. vm_compute in Hoid. injection Hoid as <-. reflexivity.
  - destruct (pieHandler_responses fixtures.pies fixtures.storedPieHex) as [_ H].
    destruct (H eq_refl) as (oid & Hoid & _ & Hsome).
    apply Hsome. vm_compute in Hoid. injection Hoid as <-. reflexivity.
Defined.

(** ** The refresh lock *)

Section RefreshFacts.
Import plugin client models.
Context {P : Platform} {S : Services P}.
Variables (fhirEndpoint redcapEndpoint redcapToken : string).
Variables (pieCollection : Collection) (basisPieURL : string).

Local Abbreviation step' :=
  (step fhirEndpoint redcapEndpoint redcapToken pieCollection basisPieURL).
Local Abbreviation reachable' :=
  (reachable fhirEndpoint redcapEndpoint redcapToken pieCollection basisPieURL).

Lemma inFlight_count_insert (l : list invocation) :
  forall (i : nat) (x y : invocation),
    l !! i = Some x ->
    (length (List.filter inFlight (<[i := y]> l)) + b2n (inFlight x)
     = length (List.filter inFlight l) + b2n (inFlight y))%nat.
Proof.
  induction l as [|a l IH]; intros [|i] x y H; try discriminate.
  - injection H as ->. simpl. destruct (inFlight x), (inFlight y); simpl; lia.
  - simpl in H. specialize (IH i x y H). simpl.
    destruct (inFlight a); simpl; lia.
Qed.

Lemma inFlight_at (inv : invocation) (p : pc) :
  at_ inv = p ->
  inFlight inv = match p with Fetching | Posting _ => true | _ => false end.
Proof. intros <-. reflexivity. Qed.

Lemma step_lockInvariant (s s' : Process) :
  step' s s' -> lockInvariant s -> lockInvariant s'.
Proof.
  unfold lockInvariant, cyclesInFlight.
  intros Hstep Hinv.
  destruct Hstep as [s t | s i inv Hi Hat Hl | s i inv err w' Hi Hat _
                    | s i inv studies w' Hi Hat _ | s i inv studies order results w' Hi Hat _ _
                    | s i inv studies order w' Hi Hat _ _]; simpl.
  - rewrite List.filter_app, length_app. simpl. lia.
  - pose proof (inFlight_count_insert _ i inv (moveTo inv Fetching) Hi) as Hc.
    rewrite (inFlight_at inv _ Hat) in Hc. rewrite Hl in Hinv. simpl in *. lia.
  - pose proof (inFlight_count_insert _ i inv
                  (moveTo inv (Returned (Returns (Err err)))) Hi) as Hc.
    rewrite (inFlight_at inv _ Hat) in Hc. destruct (locked s); simpl in *; lia.
  - pose proof (inFlight_count_insert _ i inv (moveTo inv (Posting studies)) Hi) as Hc.
    rewrite (inFlight_at inv _ Hat) in Hc. simpl in *. lia.
  - pose proof (inFlight_count_insert _ i inv
                  (moveTo inv (Returned (Returns (Ok results)))) Hi) as Hc.
    rewrite (inFlight_at inv _ Hat) in Hc. destruct (locked s); simpl in *; lia.
  - pose proof (inFlight_count_insert _ i inv (moveTo inv (Returned Panics)) Hi) as Hc.
    rewrite (inFlight_at inv _ Hat) in Hc. destruct (locked s); simpl in *; lia.
Qed.

Lemma reachable_lockInvariant (s : Process) : reachable' s -> lockInvariant s.
Proof.
  intros [w Hr]. revert s Hr. apply (rtc_ind_r (fun s => lockInvariant s)).
  - reflexivity.
  - intros y z _ Hstep IH. eapply step_lockInvariant; eassumption.
Qed.

(** What a step does to an invocation waiting at the lock: it leaves it
    there, or lets it in, and then no cycle was in flight. *)
Lemma step_waiting (s s' : Process) (i : nat) (inv : invocation) :
  step' s s' ->
  invocations s !! i = Some inv -> at_ inv = AtLock ->
  invocations s' !! i = Some inv
  \/ (invocations s' !! i = Some (moveTo inv Fetching)
      /\ locked s = false /\ locked s' = true).
Proof.
  intros Hstep Hi Hat.
  destruct Hstep as [s t | s j inv' Hj Hat' Hl | s j inv' err w' Hj Hat' _
                    | s j inv' studies w' Hj Hat' _
                    | s j inv' studies order results w' Hj Hat' _ _
                    | s j inv' studies order w' Hj Hat' _ _]; simpl.
  - left. rewrite lookup_app_l; [exact Hi|]. now apply lookup_lt_Some in Hi.
  - destruct (decide (j = i)) as [->|Hne].
    + right. rewrite Hi in Hj. injection Hj as <-.
      rewrite list_lookup_insert_eq; [auto | now apply lookup_lt_Some in Hi].
    + left. now rewrite list_lookup_insert_ne.
  - destruct (decide (j = i)) as [->|Hne]; [congruence|].
    left. now rewrite list_lookup_insert_ne.
  - destruct (decide (j = i)) as [->|Hne]; [congruence|].
    left. now rewrite list_lookup_insert_ne.
  - destruct (decide (j = i)) as [->|Hne]; [congruence|].
    left. now rewrite list_lookup_insert_ne.
  - destruct (decide (j = i)) as [->|Hne]; [congruence|].
    left. now rewrite list_lookup_insert_ne.
Qed.

(** A cycle in flight can always take its next step, and when it
    returns, also on a failed fetch or a panic, the mutex is unlocked. *)
Lemma in_flight_proceeds (s : Process) (i : nat) (inv : invocation) :
  invocations s !! i = Some inv -> inFlight inv = true ->
  exists s' p,
    step' s s'
    /\ invocations s' !! i = Some (moveTo inv p)
    /\ match p with
       | Posting _ => at_ inv = Fetching /\ locked s' = locked s
       | Returned _ => locked s' = false
       | _ => False
       end.
Proof.
  intros Hi Hfl. unfold inFlight in Hfl.
  assert (Hlt : (i < length (invocations s))%nat) by now apply lookup_lt_Some in Hi.
  destruct (at_ inv) as [| |studies|out] eqn:Hat; try discriminate.
  - destruct (GetREDCapData redcapEndpoint redcapToken (world s)) as [[studies|err] w'] eqn:Hg.
    + eexists _, (Posting studies). split; [eapply step_fetched; eassumption|].
      simpl. rewrite list_lookup_insert_eq by exact Hlt. auto.
    + eexists _, (Returned _). split; [eapply step_fetch_failed; eassumption|].
      simpl. rewrite list_lookup_insert_eq by exact Hlt. auto.
  - destruct (PostRiskAssessments fhirEndpoint (snd <$> map_to_list studies) pieCollection
                basisPieURL (world s)) as [[results|] w'] eqn:Hp.
    + eexists _, (Returned _). split.
      * eapply step_posted; [exact Hi | exact Hat | apply Permutation_refl | exact Hp].
      * simpl. rewrite list_lookup_insert_eq by exact Hlt. auto.
    + eexists _, (Returned _). split.
      * eapply step_panicked; [exact Hi | exact Hat | apply Permutation_refl | exact Hp].
      * simpl. rewrite list_lookup_insert_eq by exact Hlt. auto.
Qed.

Lemma step_reachable (s s' : Process) : reachable' s -> step' s s' -> reachable' s'.
Proof. intros [w Hr] Hstep. exists w. eapply rtc_r; eassumption. Qed.

(** A step changes the invocation of one goroutine only. *)
Lemma step_changes_one (s s' : Process) (i : nat) (inv : invocation) :
  step' s s' ->
  invocations s !! i = Some inv ->
  invocations s' !! i = Some inv
  \/ (at_ inv = AtLock
      /\ invocations s' !! i = Some (moveTo inv Fetching) /\ locked s' = true)
  \/ (at_ inv = Fetching
      /\ exists studies w',
           GetREDCapData redcapEndpoint redcapToken (world s) = (Ok studies, w')
           /\ invocations s' !! i = Some (moveTo inv (Posting studies)))
  \/ (at_ inv = Fetching
      /\ exists err w',
           GetREDCapData redcapEndpoint redcapToken (world s) = (Err err, w')
           /\ invocations s' !! i = Some (moveTo inv (Returned (Returns (Err err))))
           /\ locked s' = false)
  \/ (exists studies out,
        at_ inv = Posting studies
        /\ invocations s' !! i = Some (moveTo inv (Returned out)) /\ locked s' = false).
Proof.
  intros Hstep Hi.
  assert (Hlt : (i < length (invocations s))%nat) by now apply lookup_lt_Some in Hi.
  destruct Hstep as [s t | s j inv' Hj Hat' Hl | s j inv' err w' Hj Hat' Hg
                    | s j inv' studies w' Hj Hat' Hg
                    | s j inv' studies order results w' Hj Hat' _ _
                    | s j inv' studies order w' Hj Hat' _ _]; simpl.
  - left. now rewrite lookup_app_l.
  - destruct (decide (j = i)) as [->|Hne]; [|left; now rewrite list_lookup_insert_ne].
    rewrite Hi in Hj. injection Hj as <-.
    right; left. rewrite list_lookup_insert_eq by exact Hlt. auto.
  - destruct (decide (j = i)) as [->|Hne]; [|left; now rewrite list_lookup_insert_ne].
    rewrite Hi in Hj. injection Hj as <-.
    right; right; right; left. rewrite list_lookup_insert_eq by exact Hlt. eauto 6.
  - destruct (decide (j = i)) as [->|Hne]; [|left; now rewrite list_lookup_insert_ne].
    rewrite Hi in Hj. injection Hj as <-.
    right; right; left. rewrite list_lookup_insert_eq by exact Hlt. eauto 6.
  - destruct (decide (j = i)) as [->|Hne]; [|left; now rewrite list_lookup_insert_ne].
    rewrite Hi in Hj. injection Hj as <-.
    right; right; right; right. rewrite list_lookup_insert_eq by exact Hlt. eauto 6.
  - destruct (decide (j = i)) as [->|Hne]; [|left; now rewrite list_lookup_insert_ne].
    rewrite Hi in Hj. injection Hj as <-.
    right; right; right; right. rewrite list_lookup_insert_eq by exact Hlt. eauto 6.
Qed.

Lemma moveTo_same (inv : invocation) (p : pc) : moveTo inv p = inv -> at_ inv = p.
Proof. intros <-. reflexivity. Qed.

(** C8: in every state the process reaches, at most one refresh cycle is
    in flight, and the mutex is locked exactly then; an invocation (from
    the HTTP handler or from the cron job) that arrives meanwhile waits
    at the lock and is neither dropped nor rejected; it enters once no
    cycle is in flight; a cycle in flight always proceeds; and when it
    returns, also on a failed fetch or grouping, the mutex is unlocked. *)
Theorem refresh_cycles_run_one_at_a_time (s : Process) :
  reachable' s ->
  oneAtATime s
  /\ waitingBlocks fhirEndpoint redcapEndpoint redcapToken pieCollection basisPieURL s
  /\ waitingEnters fhirEndpoint redcapEndpoint redcapToken pieCollection basisPieURL s
  /\ cycleProceeds fhirEndpoint redcapEndpoint redcapToken pieCollection basisPieURL s
  /\ returnUnlocks fhirEndpoint redcapEndpoint redcapToken pieCollection basisPieURL s
  /\ abortUnlocks fhirEndpoint redcapEndpoint redcapToken pieCollection basisPieURL s.
Proof.
  intros Hreach.
  pose proof (reachable_lockInvariant s Hreach) as Hinv. unfold lockInvariant in Hinv.
  split; [|split; [|split; [|split; [|split]]]].
  - unfold oneAtATime. rewrite Hinv. destruct (locked s); simpl.
    + split; [lia | split; auto].
    + split; [lia | split; [discriminate | lia]].
  - intros s' i inv Hstep Hi Hat.
    destruct (step_waiting s s' i inv Hstep Hi Hat) as [Hsame|(Hin & Hl & _)].
    + auto.
    + split; [|now right]. intros Hone. rewrite Hinv, Hl in Hone. discriminate.
  - intros i inv Hi Hat Hnone.
    assert (Hl : locked s = false).
    { rewrite Hinv in Hnone. now destruct (locked s). }
    eexists. split; [eapply step_lock; eassumption|].
    simpl. rewrite list_lookup_insert_eq; [reflexivity | now apply lookup_lt_Some in Hi].
  - intros i inv Hi Hfl. now apply in_flight_proceeds.
  - intros s' i inv out Hstep Hi Hfl Hi'.
    assert (Hl : locked s' = false).
    { unfold inFlight in Hfl.
      destruct (step_changes_one s s' i inv Hstep Hi)
        as [H|[(Hat & _)|[(Hat & studies & w' & _ & H)|[(_ & _ & _ & _ & _ & H)|(_ & _ & _ & _ & H)]]]].
      - rewrite H in Hi'. injection Hi' as Hi'. symmetry in Hi'.
        apply moveTo_same in Hi'. rewrite Hi' in Hfl. discriminate.
      - rewrite Hat in Hfl. discriminate.
      - rewrite H in Hi'. injection Hi' as Hi'. discriminate Hi'.
      - exact H.
      - exact H. }
    split; [exact Hl|].
    pose proof (reachable_lockInvariant s' (step_reachable s s' Hreach Hstep)) as Hinv'.
    unfold lockInvariant in Hinv'. rewrite Hinv', Hl. reflexivity.
  - intros s' i inv err w' Hstep Hi Hat Hg Hchanged.
    destruct (step_changes_one s s' i inv Hstep Hi)
      as [H|[(Hat' & _)|[(_ & studies & w'' & Hg' & _)|[(_ & err' & w'' & Hg' & H & Hl)|(studies & out & Hat' & _)]]]].
    + contradiction.
    + congruence.
    + congruence.
    + rewrite Hg in Hg'. injection Hg' as <- _. auto.
    + congruence.
Qed.
End RefreshFacts.

Lemma refreshing_reachable :
  client.reachable (S := fixtures.testServices fixtures.twoPatients)
    "http://fhir" "http://redcap/api" "123abc" tt "http://riskservice/pies"
    fixtures.refreshing.
Proof.
  exists fixtures.world0.
  eapply rtc_l; [apply (client.step_invoke _ _ _ _ _ _ client.HTTPTrigger)|].
  eapply rtc_l; [apply (client.step_invoke _ _ _ _ _ _ client.CronTrigger)|].
  eapply rtc_l; [eapply (client.step_lock _ _ _ _ _ _ 0%nat); reflexivity|].
  apply rtc_refl.
Qed.

Lemma refresh_cycles_run_one_at_a_time_witness :
  oneAtATime fixtures.refreshing
  /\ waitingBlocks (S := fixtures.testServices fixtures.twoPatients)
       "http://fhir" "http://redcap/api" "123abc" tt "http://riskservice/pies"
       fixtures.refreshing
  /\ waitingEnters (S := fixtures.testServices fixtures.twoPatients)
       "http://fhir" "http://redcap/api" "123abc" tt "http://riskservice/pies"
       fixtures.refreshing
  /\ cycleProceeds (S := fixtures.testServices fixtures.twoPatients)
       "http://fhir" "http://redcap/api" "123abc" tt "http://riskservice/pies"
       fixtures.refreshing
  /\ returnUnlocks (S := fixtures.testServices fixtures.twoPatients)
       "http://fhir" "http://redcap/api" "123abc" tt "http://riskservice/pies"
       fixtures.refreshing
  /\ abortUnlocks (S := fixtures.testServices fixtures.twoPatients)
       "http://fhir" "http://redcap/api" "123abc" tt "http://riskservice/pies"
       fixtures.refreshing.
Proof.
  apply (refresh_cycles_run_one_at_a_time (S := fixtures.testServices fixtures.twoPatients)
           "http://fhir" "http://redcap/api" "123abc" tt "http://riskservice/pies"
           fixtures.refreshing).
  exact refreshing_reachable.
Defined.

(** A refresh on the fixture servers: the fetch groups the three records
    into two studies, and the posting gives the results of the route test. *)
Example refresh_on_fixtures :
  fst (client.GetREDCapData (S := fixtures.testServices fixtures.twoPatients)
         "http://redcap/api" "123abc" fixtures.world0)
  = Ok fixtures.exampleStudies
  /\ Permutation
       (snd <$> map_to_list fixtures.exampleStudies) [fixtures.study1; fixtures.studyA].
Proof. split; [reflexivity|]. vm_compute. apply Permutation_refl. Qed.

(** ** The repository's tests, on the model *)

Example TestStudyIDString :
  map models.StudyIDString fixtures.exampleRecords = ["1"; "1"; "a"]%string.
Proof. reflexivity. Qed.

Example TestRiskFactorDateTime :
  map models.RiskFactorDateTime fixtures.exampleRecords
  = [Ok (time.Date 2015 12 7); Ok (time.Date 2016 4 1); Ok (time.Date 2016 2 21)].
Proof. reflexivity. Qed.

Example TestIsRiskFactorsComplete :
  models.IsRiskFactorsComplete fixtures.record0 = true
  /\ models.IsRiskFactorsComplete (fixtures.withClinicalRisk fixtures.record0 "") = false
  /\ models.IsRiskFactorsComplete (fixtures.withFunctionalRisk fixtures.record0 "") = false.
Proof. repeat split. Qed.

Example TestIncompleteRiskFactorsToPie :
  fst (models.ToPie (P := fixtures.testPlatform) "http://fhir/Patient/1"
         (fixtures.withClinicalRisk fixtures.record0 "") fixtures.world0)
  = Err "Cannot create a pie with incomplete risk factors".
Proof. reflexivity. Qed.

Example TestToRiskServiceCalculationResultsSortsByDate :
  let results :=
    fst (models.ToRiskServiceCalculationResults (P := fixtures.testPlatform)
           "http://fhir/Patient/1"
           {| models.ID := "1"; models.Records := [fixtures.record1; fixtures.record0] |}
           fixtures.world0) in
  map plugin.AsOf results = [time.Date 2015 12 7; time.Date 2016 4 1]
  /\ map plugin.ScoreValue results = [Some 3; Some 4].
Proof. split; reflexivity. Qed.

Example TestAddSecondRecordWithNonMatchingStudyID :
  fst (models.Study_AddRecord (fixtures.withStudyID fixtures.record1 (IInt 2))
         (snd (models.Study_AddRecord fixtures.record0 models.newStudy)))
  <> None.
Proof. discriminate. Qed.

(** The type assertion on the entry's resource is unchecked: a single
    entry that is not a patient makes the whole call panic, which is why
    the results above are stated for servers that answer the patient
    query with patient resources. *)
Example PostRiskAssessments_stray_resource :
  fst (client.PostRiskAssessments (S := fixtures.testServices fixtures.strayResource)
         "http://fhir" [fixtures.study9] tt "http://riskservice/pies" fixtures.world0)
  = client.Panics.
Proof. reflexivity. Qed.

(** * Further properties of the code *)

(** ** Grouping records into a study map *)

Section GroupingFacts.
Import plugin client models grouping.



Lemma hasID_self (r : Record_) : hasID (StudyIDString r) r = true.
Proof. apply String.eqb_refl. Qed.





End GroupingFacts.




(** ** Pies and results *)

Section PieFacts.
Import plugin client models converting.
Context {P : Platform}.

(** X5: a pie that [ToPie] returns comes from a complete record, refers
    to the patient URL given, carries a fresh identifier and the current
    time, and has exactly the four slices Clinical, Functional and
    Environmental, Psychosocial and Mental Health, Utilization, in this
    order, each of weight 25 and maximal value 4, with the parsed scores
    as values; the perceived risk is no slice. *)
Theorem ToPie_pie_shape (patientURL : string) (r : Record_) (w w' : World) (pie : Pie) :
  ToPie patientURL r w = (Ok pie, w') ->
  IsRiskFactorsComplete r = true
  /\ Patient pie = patientURL
  /\ Id pie = fst (NewObjectId w)
  /\ Created pie = fst (Now (snd (NewObjectId w)))
  /\ w' = snd (Now (snd (NewObjectId w)))
  /\ map Name (Slices pie) = map fst (categoryScores r)
  /\ Forall (fun sl => Weight sl = 25 /\ MaxValue sl = 4) (Slices pie)
  /\ map (fun sl => Some (Value sl)) (Slices pie)
     = map (fun ns => strconv.Atoi (snd ns)) (categoryScores r).
Proof.
  unfold ToPie, newSlice, categoryScores. cbn [map fst snd].
  destruct (IsRiskFactorsComplete r); simpl negb; cbv iota; [|discriminate].
  destruct (NewObjectId w) as [id w1]. cbn [fst snd].
  destruct (Now w1) as [now w2]. cbn [fst snd].
  destruct (strconv.Atoi (ClinicalRisk r)); [|discriminate].
  destruct (strconv.Atoi (FunctionalRisk r)); [|discriminate].
  destruct (strconv.Atoi (PsychosocialRisk r)); [|discriminate].
  destruct (strconv.Atoi (UtilizationRisk r)); [|discriminate].
  intros [= <- <-]. simpl. repeat split; try reflexivity.
  repeat (apply List.Forall_cons; [split; reflexivity|]). apply List.Forall_nil.
Qed.

(** X6: on an incomplete record [ToPie] fails before it draws an
    identifier; on a complete record with a category score that is not an
    integer it fails with an error that names the first such category and
    the score, after the identifier and the time have been drawn. *)
Theorem ToPie_reports_first_invalid_score (patientURL : string) (r : Record_) (w : World) :
  (IsRiskFactorsComplete r = false ->
   ToPie patientURL r w = (Err "Cannot create a pie with incomplete risk factors", w))
  /\ (forall name score,
        IsRiskFactorsComplete r = true ->
        List.find invalidScore (categoryScores r) = Some (name, score) ->
        ToPie patientURL r w
        = (Err ("Invalid " +:+ name +:+ ": " +:+ score), snd (Now (snd (NewObjectId w))))).
Proof.
  unfold ToPie, newSlice, categoryScores, invalidScore. split.
  - intros ->. reflexivity.
  - intros name score -> Hfind. simpl negb. cbv iota.
    destruct (NewObjectId w) as [id w1]. cbn [fst snd].
    destruct (Now w1) as [now w2]. simpl in *.
    destruct (strconv.Atoi (ClinicalRisk r)); simpl in Hfind; [|now injection Hfind as <- <-].
    destruct (strconv.Atoi (FunctionalRisk r)); simpl in Hfind; [|now injection Hfind as <- <-].
    destruct (strconv.Atoi (PsychosocialRisk r)); simpl in Hfind; [|now injection Hfind as <- <-].
    destruct (strconv.Atoi (UtilizationRisk r)); simpl in Hfind; [|now injection Hfind as <- <-].
    discriminate.
Qed.

Lemma ToPie_ok_patient_slices (patientURL : string) (r : Record_) (w w' : World) (pie : Pie) :
  ToPie patientURL r w = (Ok pie, w') ->
  Patient pie = patientURL /\ length (Slices pie) = 4%nat.
Proof.
  unfold ToPie, newSlice.
  destruct (IsRiskFactorsComplete r); simpl negb; cbv iota; [|discriminate].
  destruct (NewObjectId w) as [id w1]. destruct (Now w1) as [now w2].
  destruct (strconv.Atoi (ClinicalRisk r)); [|discriminate].
  destruct (strconv.Atoi (FunctionalRisk r)); [|discriminate].
  destruct (strconv.Atoi (PsychosocialRisk r)); [|discriminate].
  destruct (strconv.Atoi (UtilizationRisk r)); [|discriminate].
  intros [= <- <-]. split; reflexivity.
Qed.

(** The score loop, on any slices: started on the slices from [i] on with
    a pointer to the first maximal slice before [i], it ends on the first
    maximal slice of all. *)
Lemma scoreLoop_firstMax (slices : list Slice) (rest : list Slice) :
  forall (i : nat) (score : option nat),
    drop i slices = rest ->
    match score with
    | None => i = 0%nat
    | Some p => firstMaxUpTo slices i p
    end ->
    match scoreLoop slices i rest score with
    | None => slices = []
    | Some p => firstMaxUpTo slices (length slices) p
    end.
Proof.
  induction rest as [|sl rest IH]; intros i score Hdrop Hinv; simpl.
  - destruct score as [p|].
    + destruct Hinv as (Hpi & Hpl & Hmax & Hfirst).
      repeat split; try assumption. intros j Hj.
      assert (length slices <= i)%nat.
      { destruct (Nat.le_gt_cases (length slices) i) as [H|H]; [exact H|].
        apply (f_equal length) in Hdrop. rewrite length_drop in Hdrop. simpl in Hdrop. lia. }
      apply Hmax. lia.
    + subst i. now rewrite drop_0 in Hdrop.
  - assert (Hi : slices !! i = Some sl).
    { rewrite <- (Nat.add_0_r i), <- lookup_drop, Hdrop. reflexivity. }
    assert (Hil : (i < length slices)%nat) by now apply lookup_lt_Some in Hi.
    assert (Hderef : deref slices i = Value sl) by (unfold deref; now rewrite Hi).
    assert (Hdrop' : drop (S i) slices = rest).
    { rewrite (drop_S _ _ _ Hi) in Hdrop. now injection Hdrop. }
    apply IH; [exact Hdrop'|].
    destruct score as [p|].
    + destruct Hinv as (Hpi & Hpl & Hmax & Hfirst).
      destruct (Z.ltb_spec (deref slices p) (Value sl)) as [Hlt|Hge].
      * repeat split; try lia.
        -- intros j Hj. destruct (Nat.eq_dec j i) as [->|Hne]; [lia|].
           specialize (Hmax j ltac:(lia)). lia.
        -- intros j Hj. specialize (Hmax j Hj). lia.
      * repeat split; try lia; try assumption.
        intros j Hj. destruct (Nat.eq_dec j i) as [->|Hne]; [lia|].
        apply Hmax. lia.
    + subst i. repeat split; try lia.
      intros j Hj. assert (j = 0)%nat as -> by lia. lia.
Qed.

(** What a converted record gives. *)
Lemma ToRiskServiceCalculationResult_ok (patientURL : string) (r : Record_) (w w' : World)
  (result : RiskServiceCalculationResult) :
  ToRiskServiceCalculationResult patientURL r w = (Ok result, w') ->
  asOfOf r = Some (AsOf result) /\ wellFormedResult patientURL result.
Proof.
  intros H.
  pose proof (ToRiskServiceCalculationResult_isOk patientURL r w) as Hok.
  rewrite H in Hok. simpl in Hok. unfold asOfOf. rewrite <- Hok.
  unfold ToRiskServiceCalculationResult, RiskFactorDateTime in H.
  destruct (ToPie patientURL r w) as [[pie|e] w1] eqn:Hpie; [|discriminate].
  destruct (time.ParseInLocation (RiskFactorDate r)) as [t|]; [|discriminate].
  injection H as <- <-. simpl.
  destruct (ToPie_ok_patient_slices patientURL r w w1 pie Hpie) as [Hpat Hlen].
  split; [reflexivity|]. split; [exact Hpat|]. split; [exact Hlen|]. simpl.
  pose proof (scoreLoop_firstMax (Slices pie) (Slices pie) 0 None (drop_0 _) eq_refl) as Hs.
  destruct (scoreLoop (Slices pie) 0 (Slices pie) None) as [p|].
  - exists p. split; [reflexivity | exact Hs].
  - rewrite Hs in Hlen. discriminate.
Qed.

Lemma convertLoop_results (patientURL : string) (records : list Record_) :
  forall (results : list RiskServiceCalculationResult) (w : World),
    Forall (wellFormedResult patientURL) results ->
    Forall (wellFormedResult patientURL) (fst (convertLoop patientURL records results w))
    /\ map AsOf (fst (convertLoop patientURL records results w))
       = map AsOf results ++ omap asOfOf records.
Proof.
  induction records as [|r rest IH]; intros results w Hall; simpl.
  - now rewrite app_nil_r.
  - pose proof (ToRiskServiceCalculationResult_isOk patientURL r w) as Hok.
    destruct (ToRiskServiceCalculationResult patientURL r w) as [[result|e] w'] eqn:Hr.
    + destruct (ToRiskServiceCalculationResult_ok patientURL r w w' result Hr) as [Hdate Hwf].
      destruct (IH (results ++ [result]) w') as [IH1 IH2].
      { apply Forall_app. split; [exact Hall|].
        apply List.Forall_cons; [exact Hwf | apply List.Forall_nil]. }
      split; [exact IH1|]. rewrite IH2, Hdate, map_app. simpl. now rewrite <- app_assoc.
    + simpl in Hok. unfold asOfOf. rewrite <- Hok. now apply IH.
Qed.

(** X7: every result of a study refers to the patient URL given, has the
    four slices, and a score that points to its first maximal slice; and
    the dates of the results are the dates of the records that convert,
    each once. *)
Theorem ToRiskServiceCalculationResults_results (C : SortContract P)
  (patientURL : string) (s : Study) (w : World) :
  Forall (wellFormedResult patientURL) (fst (ToRiskServiceCalculationResults patientURL s w))
  /\ Permutation (map AsOf (fst (ToRiskServiceCalculationResults patientURL s w)))
       (omap asOfOf (Records s)).
Proof.
  unfold ToRiskServiceCalculationResults.
  destruct (convertLoop_results patientURL (Records s) [] w (List.Forall_nil _)) as [Hall Hdates].
  destruct (convertLoop patientURL (Records s) [] w) as [results w']. simpl in *.
  split.
  - eapply Permutation_Forall; [|exact Hall]. symmetry. apply sort_perm.
  - rewrite <- Hdates. apply Permutation_map, sort_perm.
Qed.
End PieFacts.

Lemma ToPie_pie_shape_witness :
  exists pie w',
    models.ToPie (P := fixtures.testPlatform) "http://fhir/Patient/1" fixtures.record0
      fixtures.world0 = (Ok pie, w')
    /\ plugin.Patient pie = "http://fhir/Patient/1"%string
    /\ map plugin.Name (plugin.Slices pie) = map fst (converting.categoryScores fixtures.record0)
    /\ map (fun sl => Some (plugin.Value sl)) (plugin.Slices pie)
       = [Some 3; Some 2; Some 1; Some 3].
Proof.
  eexists _, _. split; [reflexivity|].
  destruct (ToPie_pie_shape (P := fixtures.testPlatform) "http://fhir/Patient/1"
              fixtures.record0 fixtures.world0 _ _ eq_refl)
    as (_ & Hpat & _ & _ & _ & Hnames & _ & Hvalues).
  split; [exact Hpat|]. split; [exact Hnames | exact Hvalues].
Defined.

Lemma ToPie_reports_first_invalid_score_witness :
  models.ToPie (P := fixtures.testPlatform) "http://fhir/Patient/1"
    (fixtures.withFunctionalRisk (fixtures.withClinicalRisk fixtures.record0 "3") "two")
    fixtures.world0
  = (Err "Invalid Functional and Environmental Risk: two",
     {| fixtures.issued := 1; fixtures.clock := 1460000001; fixtures.requests := [] |}).
Proof.
  apply (proj2 (ToPie_reports_first_invalid_score (P := fixtures.testPlatform)
                  "http://fhir/Patient/1"
                  (fixtures.withFunctionalRisk
                     (fixtures.withClinicalRisk fixtures.record0 "3") "two")
                  fixtures.world0)
           "Functional and Environmental Risk"%string "two"%string); reflexivity.
Defined.

Lemma ToRiskServiceCalculationResults_results_witness :
  Forall (converting.wellFormedResult "http://fhir/Patient/1")
    (fst (models.ToRiskServiceCalculationResults (P := fixtures.testPlatform)
            "http://fhir/Patient/1" fixtures.study1 fixtures.world0))
  /\ Permutation
       (map plugin.AsOf
          (fst (models.ToRiskServiceCalculationResults (P := fixtures.testPlatform)
                  "http://fhir/Patient/1" fixtures.study1 fixtures.world0)))
       (omap converting.asOfOf (models.Records fixtures.study1)).
Proof.
  exact (ToRiskServiceCalculationResults_results (P := fixtures.testPlatform)
           testPlatform_sorts "http://fhir/Patient/1" fixtures.study1 fixtures.world0).
Defined.

(** ** The summary and the JSON form of the results *)

Section SummaryFacts.
Import plugin models client summarising.

Lemma wrapInt_small (z : Z) : strconv.minInt <= z <= strconv.maxInt -> wrapInt z = z.
Proof.
  unfold wrapInt, strconv.minInt, strconv.maxInt. intros H.
  rewrite Z.mod_small; lia.
Qed.

Lemma totalCount_nonneg (rs : list Result) :
  Forall (fun r => 0 <= RiskAssessmentCount r) rs -> 0 <= totalCount rs.
Proof. induction 1 as [|r rs Hr _ IH]; simpl; lia. Qed.

Lemma summaryLoop_counts (rs : list Result) :
  forall numErrors numAssessments,
    Forall (fun r => 0 <= RiskAssessmentCount r) rs ->
    0 <= numErrors -> 0 <= numAssessments ->
    numErrors + Z.of_nat (length rs) <= strconv.maxInt ->
    numAssessments + totalCount rs <= strconv.maxInt ->
    summaryLoop rs numErrors numAssessments
    = (numErrors + Z.of_nat (length (List.filter hasError rs)),
       numAssessments + totalCount rs).
Proof.
  induction rs as [|r rs IH]; intros e a Hall He Ha Hle Hla; simpl.
  - now rewrite !Z.add_0_r.
  - inversion Hall as [|? ? Hr Hrs]; subst.
    pose proof (totalCount_nonneg rs Hrs) as Hnn.
    simpl length in Hle. simpl in Hla.
    assert (Hmin : strconv.minInt <= 0) by (unfold strconv.minInt; lia).
    rewrite (wrapInt_small (a + RiskAssessmentCount r)) by lia.
    unfold hasError at 1. destruct (Error r) as [err|]; simpl.
    + rewrite (wrapInt_small (e + 1)) by lia.
      rewrite IH by (try assumption; lia). f_equal; lia.
    + rewrite IH by (try assumption; lia). f_equal; lia.
Qed.

(** X8: when no count is negative and the totals fit an int, the line
    [LogResultSummary] logs reports the number of results as patients,
    the number of results that carry an error, and the sum of the
    assessment counts. *)
Theorem LogResultSummary_reports_counts (rs : list Result) :
  Forall (fun r => 0 <= RiskAssessmentCount r) rs ->
  Z.of_nat (length rs) <= strconv.maxInt ->
  totalCount rs <= strconv.maxInt ->
  LogResultSummary rs
  = "Refreshed risk assessments for " +:+ fmt.verb_d (Z.of_nat (length rs))
    +:+ " patients: " +:+ fmt.verb_d (Z.of_nat (length (List.filter hasError rs)))
    +:+ " errors, " +:+ fmt.verb_d (totalCount rs) +:+ " risk assessments.".
Proof.
  intros Hall Hlen Htot. unfold LogResultSummary.
  rewrite (summaryLoop_counts rs 0 0 Hall) by lia. reflexivity.
Qed.

Lemma omitempty_cases (key value : string) :
  (value = ""%string /\ omitempty key value = [])
  \/ (value <> ""%string /\ omitempty key value = [(key, JString value)]).
Proof.
  unfold omitempty. destruct (String.eqb_spec value ""); [left | right]; auto.
Qed.

(** X9: the JSON members of a result determine its study ID, its patient
    ID, its count and the message of its error, and nothing more: two
    results have the same members exactly if they agree on these, a [nil]
    error counting as an error with the empty message. *)
Theorem MarshalJSON_determines_result (r1 r2 : Result) :
  MarshalJSON r1 = MarshalJSON r2
  <-> client.StudyID r1 = client.StudyID r2
      /\ FHIRPatientID r1 = FHIRPatientID r2
      /\ RiskAssessmentCount r1 = RiskAssessmentCount r2
      /\ errString r1 = errString r2.
Proof.
  unfold MarshalJSON. split.
  - destruct (omitempty_cases "studyID" (client.StudyID r1)) as [[E1 ->]|[E1 ->]];
      destruct (omitempty_cases "studyID" (client.StudyID r2)) as [[E2 ->]|[E2 ->]];
      destruct (omitempty_cases "fhirPatientID" (FHIRPatientID r1)) as [[F1 ->]|[F1 ->]];
      destruct (omitempty_cases "fhirPatientID" (FHIRPatientID r2)) as [[F2 ->]|[F2 ->]];
      destruct (omitempty_cases "error" (errString r1)) as [[G1 ->]|[G1 ->]];
      destruct (omitempty_cases "error" (errString r2)) as [[G2 ->]|[G2 ->]];
      simpl; intros H; try discriminate H;
      injection H; intros; subst; repeat split; congruence.
  - intros (-> & -> & -> & ->). reflexivity.
Qed.
End SummaryFacts.

Lemma LogResultSummary_reports_counts_witness :
  client.LogResultSummary
    [ fixtures.resultStudy1;
      notions.unresolved fixtures.studyFOO (client.errNotFound "FOO") ]
  = "Refreshed risk assessments for 2 patients: 1 errors, 2 risk assessments."%string.
Proof.
  apply (LogResultSummary_reports_counts
           [ fixtures.resultStudy1;
             notions.unresolved fixtures.studyFOO (client.errNotFound "FOO") ]).
  - repeat constructor; discriminate.
  - vm_compute. discriminate.
  - vm_compute. discriminate.
Defined.

(** An error with an empty message is written as no error at all. *)
Example MarshalJSON_drops_empty_error :
  client.MarshalJSON (client.withError fixtures.resultStudy1 "")
  = client.MarshalJSON fixtures.resultStudy1.
Proof. reflexivity. Qed.

(** ** The fetch from REDCap *)

Section FetchFacts.
Import plugin client models grouping summarising.
Context {P : Platform} {S : Services P}.

Lemma substring_all (s : string) : String.substring 0 (String.length s) s = s.
Proof. induction s as [|c s IH]; [reflexivity|]. simpl. now rewrite IH. Qed.

Lemma substring_after (e tail : string) :
  String.substring (String.length e) (String.length tail) (e +:+ tail) = tail.
Proof.
  induction e as [|c e IH]; [apply substring_all | exact IH].
Qed.

Lemma length_append (a b : string) :
  String.length (a +:+ b) = (String.length a + String.length b)%nat.
Proof.
  induction a as [|c a IH]; [reflexivity|].
  change (String.length (String c (a +:+ b))
          = Datatypes.S (String.length a + String.length b)%nat).
  simpl. now rewrite IH.
Qed.

Lemma HasSuffix_append (e suffix : string) : gostrings.HasSuffix (e +:+ suffix) suffix = true.
Proof.
  unfold gostrings.HasSuffix. rewrite length_append.
  replace (String.length e + String.length suffix - String.length suffix)%nat
    with (String.length e) by lia.
  rewrite substring_after, String.eqb_refl.
  destruct (Nat.leb_spec (String.length suffix) (String.length e + String.length suffix));
    [reflexivity | lia].
Qed.

Lemma GetREDCapData_posts_to (endpoint token : string) (w : World) :
  GetREDCapData endpoint token w
  = match PostForm (redcapURL endpoint) (redcapForm token) w with
    | (Err err, w') => (Err err, w')
    | (Ok resp, w') =>
        match http.Decode resp with
        | Err err => (Err err, w')
        | Ok records =>
            match StudyMap_AddRecords records ∅ with
            | (Some err, _) => (Err err, w')
            | (None, m) => (Ok m, w')
            end
        end
    end.
Proof.
  unfold GetREDCapData, redcapURL. now destruct (gostrings.HasSuffix endpoint "/").
Qed.

(** X10: the trailing slash of the REDCap endpoint is optional: the fetch
    with an endpoint that lacks it is the fetch with the slash added. *)
Theorem GetREDCapData_adds_trailing_slash (endpoint token : string) (w : World) :
  gostrings.HasSuffix endpoint "/" = false ->
  GetREDCapData endpoint token w = GetREDCapData (endpoint +:+ "/") token w.
Proof.
  intros Hno. rewrite !GetREDCapData_posts_to. unfold redcapURL.
  now rewrite Hno, (HasSuffix_append endpoint "/").
Qed.


End FetchFacts.

Lemma GetREDCapData_adds_trailing_slash_witness :
  client.GetREDCapData (S := fixtures.testServices fixtures.twoPatients)
    "http://redcap/api" "123abc" fixtures.world0
  = client.GetREDCapData (S := fixtures.testServices fixtures.twoPatients)
      "http://redcap/api/" "123abc" fixtures.world0.
Proof.
  apply (GetREDCapData_adds_trailing_slash (S := fixtures.testServices fixtures.twoPatients)
           "http://redcap/api" "123abc" fixtures.world0).
  reflexivity.
Defined.

(** ** Cycles from start to return *)

Section CycleFacts.
Import plugin client models summarising.
Context {P : Platform} {S : Services P}.
Variables (fhirEndpoint redcapEndpoint redcapToken : string).
Variables (pieCollection : Collection) (basisPieURL : string).

Local Abbreviation step' :=
  (step fhirEndpoint redcapEndpoint redcapToken pieCollection basisPieURL).
Local Abbreviation reachable' :=
  (reachable fhirEndpoint redcapEndpoint redcapToken pieCollection basisPieURL).
Local Abbreviation Refresh :=
  (fun range => RefreshRiskAssessments range fhirEndpoint redcapEndpoint redcapToken
                  pieCollection basisPieURL).

(** The state after invocation [i] has moved to [p]. *)
Local Abbreviation moved := (fun (s : Process) (i : nat) (inv : invocation) (p : pc) lk w =>
  {| locked := lk; world := w; invocations := <[i := moveTo inv p]> (invocations s) |}).

Lemma moved_again (l : list invocation) (i : nat) (inv : invocation) (p q : pc) :
  <[i := moveTo (moveTo inv p) q]> (<[i := moveTo inv p]> l) = <[i := moveTo inv q]> l.
Proof. apply list_insert_insert_eq. Qed.

(** The next step of a cycle in flight, with the state it leads to. *)
Lemma in_flight_next (s : Process) (i : nat) (inv : invocation) :
  invocations s !! i = Some inv -> inFlight inv = true ->
  exists p lk w,
    step' s (moved s i inv p lk w)
    /\ (remaining (moveTo inv p) < remaining inv)%nat.
Proof.
  intros Hi Hfl. unfold inFlight in Hfl. unfold remaining.
  destruct (at_ inv) as [| |studies|out] eqn:Hat; try discriminate.
  - destruct (GetREDCapData redcapEndpoint redcapToken (world s)) as [[studies|err] w'] eqn:Hg.
    + exists (Posting studies), (locked s), w'. split; [|simpl; lia].
      eapply step_fetched; eassumption.
    + exists (Returned (Returns (Err err))), false, w'. split; [|simpl; lia].
      eapply step_fetch_failed; eassumption.
  - destruct (PostRiskAssessments fhirEndpoint (snd <$> map_to_list studies) pieCollection
                basisPieURL (world s)) as [[results|] w'] eqn:Hp.
    + exists (Returned (Returns (Ok results))), false, w'. split; [|simpl; lia].
      eapply step_posted; [exact Hi | exact Hat | apply Permutation_refl | exact Hp].
    + exists (Returned Panics), false, w'. split; [|simpl; lia].
      eapply step_panicked; [exact Hi | exact Hat | apply Permutation_refl | exact Hp].
Qed.

Lemma pending_insert (l : list invocation) :
  forall (i : nat) (x y : invocation),
    l !! i = Some x ->
    (pending (<[i := y]> l) + remaining x = pending l + remaining y)%nat.
Proof.
  induction l as [|a l IH]; intros [|i] x y H; try discriminate.
  - injection H as ->. simpl. lia.
  - simpl in H. specialize (IH i x y H). simpl. lia.
Qed.

Lemma some_in_flight (l : list invocation) :
  (0 < length (List.filter inFlight l))%nat ->
  exists i inv, l !! i = Some inv /\ inFlight inv = true.
Proof.
  induction l as [|a l IH]; simpl; [lia|].
  destruct (inFlight a) eqn:Ha.
  - intros _. exists 0%nat, a. auto.
  - intros H. destruct (IH H) as (i & inv & Hi & Hfl). exists (Datatypes.S i), inv. auto.
Qed.

Lemma some_at_lock (l : list invocation) :
  length (List.filter inFlight l) = 0%nat ->
  (0 < pending l)%nat ->
  exists i inv, l !! i = Some inv /\ at_ inv = AtLock.
Proof.
  induction l as [|a l IH]; simpl; [lia|].
  unfold inFlight at 1, remaining at 1.
  destruct (at_ a) as [| |studies|out] eqn:Ha; simpl; try discriminate.
  - intros _ _. exists 0%nat, a. auto.
  - intros H0 Hp. destruct (IH H0 Hp) as (i & inv & Hi & Hat).
    exists (Datatypes.S i), inv. auto.
Qed.

(** While an invocation has not returned, some invocation can step on. *)
Lemma some_cycle_steps (s : Process) :
  lockInvariant s ->
  (0 < pending (invocations s))%nat ->
  exists s',
    step' s s'
    /\ (pending (invocations s') < pending (invocations s))%nat
    /\ length (invocations s') = length (invocations s).
Proof.
  unfold lockInvariant, cyclesInFlight. intros Hinv Hpending.
  destruct (length (List.filter inFlight (invocations s))) as [|n] eqn:Hn.
  - destruct (some_at_lock _ Hn Hpending) as (i & inv & Hi & Hat).
    assert (Hl : locked s = false) by (destruct (locked s); [discriminate | reflexivity]).
    eexists. split; [eapply step_lock; eassumption|]. simpl.
    pose proof (pending_insert _ i inv (moveTo inv Fetching) Hi) as Hp.
    unfold remaining in Hp at 1 2. rewrite Hat in Hp. simpl in Hp.
    rewrite length_insert. lia.
  - destruct (some_in_flight (invocations s)) as (i & inv & Hi & Hfl); [lia|].
    destruct (in_flight_next s i inv Hi Hfl) as (p & lk & w & Hstep & Hless).
    eexists. split; [exact Hstep|]. simpl.
    pose proof (pending_insert _ i inv (moveTo inv p) Hi) as Hp.
    rewrite length_insert. lia.
Qed.

Lemma all_cycles_complete (n : nat) :
  forall s,
    pending (invocations s) = n ->
    lockInvariant s ->
    exists s',
      rtc step' s s'
      /\ pending (invocations s') = 0%nat
      /\ lockInvariant s'
      /\ length (invocations s') = length (invocations s).
Proof.
  induction n as [n IH] using lt_wf_ind. intros s Hn Hinv.
  destruct n as [|n].
  - exists s. repeat split; try assumption. apply rtc_refl.
  - destruct (some_cycle_steps s Hinv) as (s1 & Hstep & Hless & Hlen); [lia|].
    pose proof (step_lockInvariant _ _ _ _ _ s s1 Hstep Hinv) as Hinv1.
    destruct (IH (pending (invocations s1)) ltac:(lia) s1 eq_refl Hinv1)
      as (s' & Hrtc & Hzero & Hinv' & Hlen').
    exists s'. repeat split; try assumption; [|congruence].
    eapply rtc_l; eassumption.
Qed.

Lemma pending_zero (l : list invocation) :
  pending l = 0%nat -> Forall returned l /\ List.filter inFlight l = [].
Proof.
  induction l as [|a l IH]; simpl; [intros _; split; constructor|].
  unfold remaining at 1, inFlight at 1, returned at 1.
  destruct (at_ a) as [| |studies|out] eqn:Ha; simpl; try lia.
  intros H. destruct (IH H) as [Hall Hnone]. split; [|exact Hnone].
  constructor; [|exact Hall]. exists out. exact Ha.
Qed.

(** X12: from every state the process reaches, the invocations made so
    far can all run to their return, one cycle after the other, without a
    further invocation; and then the mutex is unlocked. *)
Theorem every_invocation_can_return (s : Process) :
  reachable' s ->
  exists s',
    rtc step' s s'
    /\ Forall returned (invocations s')
    /\ length (invocations s') = length (invocations s)
    /\ locked s' = false.
Proof.
  intros Hreach.
  pose proof (reachable_lockInvariant _ _ _ _ _ s Hreach) as Hinv.
  destruct (all_cycles_complete _ s eq_refl Hinv) as (s' & Hrtc & Hzero & Hinv' & Hlen).
  destruct (pending_zero _ Hzero) as [Hall Hnone].
  exists s'. repeat split; try assumption.
  unfold lockInvariant, cyclesInFlight in Hinv'. rewrite Hnone in Hinv'.
  destruct (locked s'); [discriminate | reflexivity].
Qed.

(** X13: an invocation that finds the mutex unlocked and runs without
    interleaving goes through its cycle to the return, and what it returns
    and the world it leaves are those of the body of
    [RefreshRiskAssessments] run on the world it found. *)
Theorem lone_cycle_returns_the_body (range : gmap string Study -> list Study)
  (s : Process) (i : nat) (inv : invocation) :
  (forall studies, rangeOrder studies (range studies)) ->
  invocations s !! i = Some inv -> at_ inv = AtLock ->
  locked s = false ->
  rtc step' s
    (moved s i inv (Returned (fst (Refresh range (world s)))) false
       (snd (Refresh range (world s)))).
Proof.
  intros Hrange Hi Hat Hl.
  assert (Hlt : (i < length (invocations s))%nat) by now apply lookup_lt_Some in Hi.
  eapply rtc_l; [eapply step_lock; eassumption|].
  set (s1 := {| locked := true; world := world s;
                invocations := <[i := moveTo inv Fetching]> (invocations s) |}).
  assert (Hi1 : invocations s1 !! i = Some (moveTo inv Fetching))
    by (simpl; now rewrite list_lookup_insert_eq).
  unfold RefreshRiskAssessments.
  destruct (GetREDCapData redcapEndpoint redcapToken (world s)) as [[studies|err] w1] eqn:Hg.
  - eapply rtc_l; [eapply (step_fetched _ _ _ _ _ s1 i); [exact Hi1 | reflexivity | exact Hg]|].
    simpl. rewrite moved_again.
    set (s2 := {| locked := true; world := w1;
                  invocations := <[i := moveTo inv (Posting studies)]> (invocations s) |}).
    assert (Hi2 : invocations s2 !! i = Some (moveTo inv (Posting studies)))
      by (simpl; now rewrite list_lookup_insert_eq).
    destruct (PostRiskAssessments fhirEndpoint (range studies) pieCollection basisPieURL w1)
      as [[results|] w2] eqn:Hp.
    + eapply rtc_l;
        [eapply (step_posted _ _ _ _ _ s2 i);
         [exact Hi2 | reflexivity | apply Hrange | exact Hp]|].
      simpl. rewrite moved_again. apply rtc_refl.
    + eapply rtc_l;
        [eapply (step_panicked _ _ _ _ _ s2 i);
         [exact Hi2 | reflexivity | apply Hrange | exact Hp]|].
      simpl. rewrite moved_again. apply rtc_refl.
  - eapply rtc_l;
      [eapply (step_fetch_failed _ _ _ _ _ s1 i); [exact Hi1 | reflexivity | exact Hg]|].
    simpl. rewrite moved_again. apply rtc_refl.
Qed.
End CycleFacts.

Lemma every_invocation_can_return_witness :
  exists s',
    rtc (client.step (S := fixtures.testServices fixtures.twoPatients)
           "http://fhir" "http://redcap/api" "123abc" tt "http://riskservice/pies")
      fixtures.refreshing s'
    /\ Forall summarising.returned (client.invocations s')
    /\ length (client.invocations s') = length (client.invocations fixtures.refreshing)
    /\ client.locked s' = false.
Proof.
  apply (every_invocation_can_return (S := fixtures.testServices fixtures.twoPatients)
           "http://fhir" "http://redcap/api" "123abc" tt "http://riskservice/pies"
           fixtures.refreshing).
  exact refreshing_reachable.
Defined.

Lemma inKeyOrder_rangeOrder (studies : gmap string models.Study) :
  client.rangeOrder studies (routes.inKeyOrder studies).
Proof. apply Permutation_refl. Qed.

Lemma lone_cycle_returns_the_body_witness :
  rtc (client.step (S := fixtures.testServices fixtures.twoPatients)
         "http://fhir" "http://redcap/api" "123abc" tt "http://riskservice/pies")
    routes.oneCall
    {| client.locked := false;
       client.world :=
         snd (client.RefreshRiskAssessments (S := fixtures.testServices fixtures.twoPatients)
                routes.inKeyOrder "http://fhir" "http://redcap/api" "123abc" tt
                "http://riskservice/pies" fixtures.world0);
       client.invocations :=
         [ {| client.source := client.HTTPTrigger;
              client.at_ :=
                client.Returned
                  (fst (client.RefreshRiskAssessments
                          (S := fixtures.testServices fixtures.twoPatients)
                          routes.inKeyOrder "http://fhir" "http://redcap/api" "123abc" tt
                          "http://riskservice/pies" fixtures.world0)) |} ] |}.
Proof.
  apply (lone_cycle_returns_the_body (S := fixtures.testServices fixtures.twoPatients)
           "http://fhir" "http://redcap/api" "123abc" tt "http://riskservice/pies"
           routes.inKeyOrder routes.oneCall 0%nat
           {| client.source := client.HTTPTrigger; client.at_ := client.AtLock |}).
  - exact inKeyOrder_rangeOrder.
  - reflexivity.
  - reflexivity.
  - reflexivity.
Defined.

(** ** The refresh route *)

Section RouteFacts.
Import plugin client models summarising routes.
Context {P : Platform} {S : Services P}.
Variables (fhirEndpoint redcapEndpoint redcapToken : string).
Variables (pieCollection : Collection) (basisPieURL : string).

(** X14: against a server that answers the patient query with patient
    resources, the handler of [POST /refresh] always answers: with 500
    and the error when the fetch from REDCap fails, and otherwise with 200
    and one result for each study, whether or not studies failed. *)
Theorem refreshHandler_answers (range : gmap string Study -> list Study) (w : World) :
  subjectsOnly S ->
  (forall studies, rangeOrder studies (range studies)) ->
  exists resp w',
    refreshHandler range fhirEndpoint redcapEndpoint redcapToken pieCollection basisPieURL w
    = (Returns resp, w')
    /\ match GetREDCapData redcapEndpoint redcapToken w with
       | (Err err, _) => resp = AbortWithError StatusInternalServerError err
       | (Ok studies, _) =>
           exists results,
             resp = ResultsJSON http.StatusOK (LogResultSummary results) results
             /\ length results = size studies
             /\ Forall2 resultOf (range studies) results
       end.
Proof.
  intros Hsub Hrange. unfold refreshHandler, RefreshRiskAssessments.
  destruct (GetREDCapData redcapEndpoint redcapToken w) as [[studies|err] w1].
  - destruct (PostRiskAssessments_total fhirEndpoint pieCollection basisPieURL
                (range studies) Hsub w1) as (results & w2 & Hpost & Hall).
    rewrite Hpost. eexists _, _. split; [reflexivity|].
    exists results. split; [reflexivity|]. split; [|exact Hall].
    rewrite <- (Forall2_length _ _ _ Hall), (Permutation_length (Hrange studies)), length_fmap.
    apply length_map_to_list.
  - eexists _, _. split; reflexivity.
Qed.
End RouteFacts.

Lemma refreshHandler_answers_witness :
  exists resp w',
    routes.refreshHandler (S := fixtures.testServices fixtures.twoPatients)
      routes.inKeyOrder "http://fhir" "http://redcap/api" "123abc" tt
      "http://riskservice/pies" fixtures.world0
    = (client.Returns resp, w')
    /\ match client.GetREDCapData (S := fixtures.testServices fixtures.twoPatients)
               "http://redcap/api" "123abc" fixtures.world0 with
       | (Err err, _) => resp = routes.AbortWithError routes.StatusInternalServerError err
       | (Ok studies, _) =>
           exists results,
             resp = routes.ResultsJSON http.StatusOK (client.LogResultSummary results) results
             /\ length results = size studies
             /\ Forall2 resultOf (routes.inKeyOrder studies) results
       end.
Proof.
  apply (refreshHandler_answers (S := fixtures.testServices fixtures.twoPatients)
           "http://fhir" "http://redcap/api" "123abc" tt "http://riskservice/pies"
           routes.inKeyOrder fixtures.world0).
  - exact twoPatients_subjectsOnly.
  - exact inKeyOrder_rangeOrder.
Defined.

(** The route test: two studies, two and one assessments, no errors. *)
Example TestRefresh :
  fst (routes.refreshHandler (S := fixtures.testServices fixtures.twoPatients)
         routes.inKeyOrder "http://fhir" "http://redcap/api" "123abc" tt
         "http://riskservice/pies" fixtures.world0)
  = client.Returns
      (routes.ResultsJSON 200
         "Refreshed risk assessments for 2 patients: 0 errors, 3 risk assessments."
         [ fixtures.resultStudy1;
           {| client.StudyID := "a"; client.FHIRPatientID := "56fd63cdac1c5d77f6f695a2";
              client.RiskAssessmentCount := 1; client.Error := None |} ]).
Proof. reflexivity. Qed.

(** ** Object identifiers in the pie route *)

Section PieRouteFacts.
Import plugin server hexform.

(** X15: the pie handler never panics; it answers 200, 400 or 404, and
    it answers a pie only if the collection stores that pie under the
    identifier the request decodes to. *)
Theorem pieHandler_never_panics (pieCollection : gmap bson.ObjectId Pie) (id : string) :
  exists r,
    pieHandler pieCollection id = client.Returns r
    /\ (code r = http.StatusOK \/ code r = http.StatusBadRequest
        \/ code r = http.StatusNotFound)
    /\ forall c pie, r = JSON c pie ->
         c = http.StatusOK
         /\ exists oid, ObjectIdHex id = Some oid /\ pieCollection !! oid = Some pie.
Proof.
  unfold pieHandler. destruct (IsObjectIdHex id) eqn:Hhex.
  - destruct (IsObjectIdHex_ObjectIdHex id Hhex) as [oid Hoid]. rewrite Hoid.
    destruct (pieCollection !! oid) as [pie|] eqn:Hpie.
    + eexists. split; [reflexivity|]. split; [now left|].
      intros c pie' [= <- <-]. split; [reflexivity|]. exists oid. auto.
    + eexists. split; [reflexivity|]. split; [now right; right|]. discriminate.
  - eexists. split; [reflexivity|]. split; [now right; left|]. discriminate.
Qed.

Lemma fromHexChar_lowerHex (c : ascii) : fromHexChar (lowerHex c) = fromHexChar c.
Proof. destruct c as [[] [] [] [] [] [] [] []]; reflexivity. Qed.

Lemma DecodeString_lowerHex (l : list ascii) :
  DecodeString (map lowerHex l) = DecodeString l
  /\ forall a, DecodeString (map lowerHex (a :: l)) = DecodeString (a :: l).
Proof.
  induction l as [|b l [IH1 IH2]].
  - split; [reflexivity | intros a; reflexivity].
  - split; [apply IH2|]. intros a.
    change (DecodeString (lowerHex a :: lowerHex b :: map lowerHex l)
            = DecodeString (a :: b :: l)).
    simpl. now rewrite !fromHexChar_lowerHex, IH1.
Qed.

Lemma list_ascii_lowerHexString (s : string) :
  list_ascii_of_string (lowerHexString s) = map lowerHex (list_ascii_of_string s).
Proof. induction s as [|c s IH]; simpl; [reflexivity | now rewrite IH]. Qed.

Lemma length_lowerHexString (s : string) :
  String.length (lowerHexString s) = String.length s.
Proof. induction s as [|c s IH]; simpl; [reflexivity | now rewrite IH]. Qed.

(** X16: the pie route reads identifiers without regard to the case of
    their hex digits: an identifier and its lower-case form get the same
    answer. *)
Theorem pieHandler_ignores_hex_case (pieCollection : gmap bson.ObjectId Pie) (id : string) :
  pieHandler pieCollection (lowerHexString id) = pieHandler pieCollection id.
Proof.
  unfold pieHandler, IsObjectIdHex, ObjectIdHex.
  rewrite length_lowerHexString, list_ascii_lowerHexString.
  now rewrite (proj1 (DecodeString_lowerHex (list_ascii_of_string id))).
Qed.

Lemma hex_byte (b : ascii) :
  fromHexChar (hexDigit (N_of_ascii b / 16)) = Some (N_of_ascii b / 16)%N
  /\ fromHexChar (hexDigit (N_of_ascii b mod 16)) = Some (N_of_ascii b mod 16)%N
  /\ ascii_of_N (16 * (N_of_ascii b / 16) + N_of_ascii b mod 16) = b.
Proof. destruct b as [[] [] [] [] [] [] [] []]; repeat split; reflexivity. Qed.

Lemma DecodeString_EncodeToString (bytes : list ascii) :
  DecodeString (EncodeToString bytes) = Some bytes.
Proof.
  induction bytes as [|b bytes IH]; [reflexivity|].
  destruct (hex_byte b) as (Hhi & Hlo & Hb).
  change (DecodeString (hexDigit (N_of_ascii b / 16) :: hexDigit (N_of_ascii b mod 16)
                        :: EncodeToString bytes) = Some (b :: bytes)).
  simpl. now rewrite Hhi, Hlo, IH, Hb.
Qed.

Lemma length_EncodeToString (bytes : list ascii) :
  length (EncodeToString bytes) = (2 * length bytes)%nat.
Proof. induction bytes as [|b bytes IH]; simpl; [reflexivity | rewrite IH; lia]. Qed.

Lemma length_string_of_list (l : list ascii) :
  String.length (string_of_list_ascii l) = length l.
Proof. induction l as [|c l IH]; simpl; [reflexivity | now rewrite IH]. Qed.

(** X17: the hex form of a twelve-byte object identifier is accepted by
    the pie route and decodes to the identifier, so a pie stored under an
    identifier is answered to the request for the hex form of it. *)
Theorem pie_is_found_by_hex_of_id (pieCollection : gmap bson.ObjectId Pie)
  (id : bson.ObjectId) (pie : Pie) :
  String.length id = 12%nat ->
  pieCollection !! id = Some pie ->
  IsObjectIdHex (Hex id) = true
  /\ ObjectIdHex (Hex id) = Some id
  /\ pieHandler pieCollection (Hex id) = client.Returns (JSON http.StatusOK pie).
Proof.
  intros Hlen Hpie.
  assert (Hbytes : length (list_ascii_of_string id) = 12%nat)
    by now rewrite length_list_ascii.
  assert (Hhex : IsObjectIdHex (Hex id) = true).
  { unfold IsObjectIdHex, Hex.
    rewrite length_string_of_list, length_EncodeToString, Hbytes.
    now rewrite list_ascii_of_string_of_list_ascii, DecodeString_EncodeToString. }
  assert (Hoid : ObjectIdHex (Hex id) = Some id).
  { unfold ObjectIdHex, Hex.
    rewrite list_ascii_of_string_of_list_ascii, DecodeString_EncodeToString, Hbytes.
    simpl. now rewrite string_of_list_ascii_of_string. }
  split; [exact Hhex|]. split; [exact Hoid|].
  unfold pieHandler. now rewrite Hhex, Hoid, Hpie.
Qed.
End PieRouteFacts.

Lemma pie_is_found_by_hex_of_id_witness :
  server.IsObjectIdHex (hexform.Hex fixtures.storedPieId) = true
  /\ server.ObjectIdHex (hexform.Hex fixtures.storedPieId) = Some fixtures.storedPieId
  /\ server.pieHandler fixtures.pies (hexform.Hex fixtures.storedPieId)
     = client.Returns (server.JSON http.StatusOK fixtures.storedPie).
Proof.
  apply (pie_is_found_by_hex_of_id fixtures.pies fixtures.storedPieId fixtures.storedPie);
    reflexivity.
Defined.

(** [TestGetPie]: the stored pie is answered to the hex form of its
    identifier, in either case. *)
Example TestGetPie :
  hexform.Hex fixtures.storedPieId = fixtures.storedPieHex
  /\ server.pieHandler fixtures.pies "56FD63CDAC1C5D77F6F695A3"
     = client.Returns (server.JSON 200 fixtures.storedPie).
Proof. split; reflexivity. Qed.

(** ** The order of Go strings *)

Lemma ascii_compare_eq (a b : ascii) : (a ?= b)%char = Eq -> a = b.
Proof. apply Ascii.compare_eq_iff. Qed.

Lemma ascii_compare_refl (a : ascii) : (a ?= a)%char = Eq.
Proof. unfold Ascii.compare. apply N.compare_refl. Qed.

Lemma ascii_compare_lt_trans (a b c : ascii) :
  (a ?= b)%char = Lt -> (b ?= c)%char = Lt -> (a ?= c)%char = Lt.
Proof.
  unfold Ascii.compare. rewrite !N.compare_lt_iff. lia.
Qed.

Lemma string_compare_refl (s : string) : (s ?= s)%string = Eq.
Proof. induction s as [|c s IH]; simpl; [reflexivity | now rewrite ascii_compare_refl]. Qed.

Lemma string_compare_lt_trans (a : string) :
  forall b c, (a ?= b)%string = Lt -> (b ?= c)%string = Lt -> (a ?= c)%string = Lt.
Proof.
  induction a as [|x a IH]; intros [|y b] [|z c]; simpl; try discriminate; try reflexivity.
  destruct (x ?= y)%char eqn:Hxy; try discriminate;
    destruct (y ?= z)%char eqn:Hyz; try discriminate; intros Hab Hbc.
  - apply ascii_compare_eq in Hxy, Hyz. subst. rewrite ascii_compare_refl. eauto.
  - apply ascii_compare_eq in Hxy. subst. now rewrite Hyz.
  - apply ascii_compare_eq in Hyz. subst. now rewrite Hxy.
  - now rewrite (ascii_compare_lt_trans x y z Hxy Hyz).
Qed.

Lemma string_leb_refl (s : string) : String.leb s s = true.
Proof. unfold String.leb. now rewrite string_compare_refl. Qed.

Lemma string_leb_trans (a b c : string) :
  String.leb a b = true -> String.leb b c = true -> String.leb a c = true.
Proof.
  unfold String.leb.
  destruct (a ?= b)%string eqn:Hab; try discriminate;
    destruct (b ?= c)%string eqn:Hbc; try discriminate; intros _ _.
  - apply String.compare_eq_iff in Hab, Hbc. subst. now rewrite string_compare_refl.
  - apply String.compare_eq_iff in Hab. subst. now rewrite Hbc.
  - apply String.compare_eq_iff in Hbc. subst. now rewrite Hab.
  - now rewrite (string_compare_lt_trans a b c Hab Hbc).
Qed.

Lemma string_ltb_leb (a b : string) : String.ltb a b = negb (String.leb b a).
Proof.
  unfold String.ltb, String.leb. rewrite (String.compare_antisym b a).
  now destruct (a ?= b)%string.
Qed.

Lemma string_ltb_is_leb (a b : string) : String.ltb a b = true -> String.leb a b = true.
Proof. unfold String.ltb, String.leb. now destruct (a ?= b)%string. Qed.

(** ** The generator of the mock service *)

Section MockFacts.
Import plugin client models mock.

Lemma raised_bounds (perceived risk : string) :
  String.leb perceived (raised perceived risk) = true
  /\ String.leb risk (raised perceived risk) = true
  /\ (raised perceived risk = perceived \/ raised perceived risk = risk).
Proof.
  unfold raised. destruct (String.ltb perceived risk) eqn:Hlt.
  - split; [now apply string_ltb_is_leb|]. split; [apply string_leb_refl | now right].
  - split; [apply string_leb_refl|]. split; [|now left].
    rewrite string_ltb_leb in Hlt. now destruct (String.leb risk perceived).
Qed.

Lemma populatePerceivedRisk_unfold (r : Record_) :
  populatePerceivedRisk r
  = setPerceivedRisk r
      (raised (raised (raised (raised (PerceivedRisk r) (ClinicalRisk r)) (FunctionalRisk r))
                 (PsychosocialRisk r)) (UtilizationRisk r)).
Proof.
  unfold populatePerceivedRisk, raised. destruct r as [sid ev d c f p u pr]. simpl.
  destruct (String.ltb pr c); simpl;
    (destruct (String.ltb _ f); simpl;
     (destruct (String.ltb _ p); simpl; (destruct (String.ltb _ u); reflexivity))).
Qed.

(** X18: [populatePerceivedRisk] changes the perceived risk only, and
    sets it to the greatest, in the order of Go strings, of the four
    category scores and what it was. *)
Theorem populatePerceivedRisk_greatest (r : Record_) :
  populatePerceivedRisk r = setPerceivedRisk r (PerceivedRisk (populatePerceivedRisk r))
  /\ Forall (fun s => String.leb s (PerceivedRisk (populatePerceivedRisk r)) = true)
       [PerceivedRisk r; ClinicalRisk r; FunctionalRisk r; PsychosocialRisk r;
        UtilizationRisk r]
  /\ In (PerceivedRisk (populatePerceivedRisk r))
       [PerceivedRisk r; ClinicalRisk r; FunctionalRisk r; PsychosocialRisk r;
        UtilizationRisk r].
Proof.
  rewrite populatePerceivedRisk_unfold. simpl PerceivedRisk.
  destruct (raised_bounds (PerceivedRisk r) (ClinicalRisk r)) as (H1a & H1b & H1c).
  remember (raised (PerceivedRisk r) (ClinicalRisk r)) as p1 eqn:E1. clear E1.
  destruct (raised_bounds p1 (FunctionalRisk r)) as (H2a & H2b & H2c).
  remember (raised p1 (FunctionalRisk r)) as p2 eqn:E2. clear E2.
  destruct (raised_bounds p2 (PsychosocialRisk r)) as (H3a & H3b & H3c).
  remember (raised p2 (PsychosocialRisk r)) as p3 eqn:E3. clear E3.
  destruct (raised_bounds p3 (UtilizationRisk r)) as (H4a & H4b & H4c).
  remember (raised p3 (UtilizationRisk r)) as p4 eqn:E4. clear E4.
  assert (H24 : String.leb p2 p4 = true) by (eapply string_leb_trans; eassumption).
  assert (H14 : String.leb p1 p4 = true) by (eapply string_leb_trans; eassumption).
  split; [reflexivity|]. split.
  - repeat (apply List.Forall_cons); try apply List.Forall_nil;
      try assumption; eapply string_leb_trans; eassumption.
  - simpl. destruct H4c as [Ea | Ea]; rewrite Ea; [|auto 6].
    destruct H3c as [Eb | Eb]; rewrite Eb; [|auto 6].
    destruct H2c as [Ec | Ec]; rewrite Ec; [|auto 6].
    destruct H1c as [Ed | Ed]; rewrite Ed; auto 6.
Qed.

Lemma move_near (previous : string) (i : Z) :
  In (move previous i) (previous :: neighbours previous).
Proof.
  unfold move, neighbours.
  destruct (String.eqb previous "1"); [destruct (i <? 10); simpl; auto|].
  destruct (String.eqb previous "2");
    [destruct (i <? 30); [|destruct (i <? 50)]; simpl; auto|].
  destruct (String.eqb previous "3");
    [destruct (i <? 50); [|destruct (i <? 65)]; simpl; auto|].
  destruct (String.eqb previous "4"); [destruct (i <? 50); simpl; auto|].
  now left.
Qed.

Lemma move_stays (previous : string) (i : Z) : 65 <= i -> move previous i = previous.
Proof.
  intros Hi. unfold move.
  destruct (Z.ltb_spec i 10); [lia|]. destruct (Z.ltb_spec i 30); [lia|].
  destruct (Z.ltb_spec i 50); [lia|]. destruct (Z.ltb_spec i 65); [lia|].
  repeat (destruct (String.eqb previous _); [reflexivity|]). reflexivity.
Qed.

Variable draws : nat -> Z.

(** X19: a score that [nextScore] returns is within [low] and [high],
    and is the previous score or one next to it; every try takes one
    draw from the random source. *)
Theorem nextScore_near_and_within (fuel : nat) (previous low high : string) :
  forall n next n',
    nextScore draws fuel previous low high n = Some (next, n') ->
    outside low high next = false
    /\ In next (previous :: neighbours previous)
    /\ (n < n' <= n + fuel)%nat.
Proof.
  induction fuel as [|fuel IH]; intros n next n' H; simpl in H; [discriminate|].
  fold (outside low high (move previous (draws n))) in H.
  destruct (outside low high (move previous (draws n))) eqn:Hout.
  - destruct (IH _ _ _ H) as (Hin & Hnear & Hn). repeat split; try assumption; lia.
  - injection H as <- <-. repeat split; [exact Hout | apply move_near | lia | lia].
Qed.

(** X20: when the previous score is within [low] and [high], [nextScore]
    returns at the latest with the first draw of 65 or more, which keeps
    the previous score. *)
Theorem nextScore_returns_on_high_draw (k : nat) (previous low high : string) :
  forall fuel n,
    outside low high previous = false ->
    (k < fuel)%nat ->
    65 <= draws (n + k) ->
    exists next n',
      nextScore draws fuel previous low high n = Some (next, n')
      /\ (n' <= n + k + 1)%nat.
Proof.
  induction k as [|k IH]; intros [|fuel] n Hin Hk Hdraw; try lia; simpl.
  - rewrite Nat.add_0_r in Hdraw. rewrite (move_stays previous _ Hdraw).
    fold (outside low high previous). rewrite Hin.
    eexists _, _. split; [reflexivity | lia].
  - fold (outside low high (move previous (draws n))).
    destruct (outside low high (move previous (draws n))).
    + destruct (IH fuel (Datatypes.S n) Hin) as (next & n' & Hnext & Hn'); [lia| |].
      * now replace (Datatypes.S n + k)%nat with (n + Datatypes.S k)%nat by lia.
      * exists next, n'. split; [exact Hnext | lia].
    + eexists _, _. split; [reflexivity | lia].
Qed.

(** X21: when the previous score and the scores next to it are all
    outside [low] and [high], [nextScore] never returns, however many
    tries it is given. *)
Theorem nextScore_never_returns (fuel : nat) (previous low high : string) :
  Forall (fun s => outside low high s = true) (previous :: neighbours previous) ->
  forall n, nextScore draws fuel previous low high n = None.
Proof.
  intros Hall. induction fuel as [|fuel IH]; intros n; simpl; [reflexivity|].
  fold (outside low high (move previous (draws n))).
  rewrite Forall_forall in Hall.
  rewrite (Hall _ (proj2 (list_elem_of_In _ _) (move_near previous (draws n)))).
  apply IH.
Qed.
End MockFacts.

Lemma nextScore_near_and_within_witness :
  mock.outside "1" "4" "2" = false
  /\ In "2"%string ("3"%string :: mock.neighbours "3")
  /\ (0 < 1 <= 0 + 3)%nat.
Proof.
  apply (nextScore_near_and_within (fun _ => 20) 3 "3" "1" "4" 0%nat "2"%string 1%nat).
  reflexivity.
Defined.

Lemma nextScore_returns_on_high_draw_witness :
  exists next n',
    mock.nextScore mock.calm 1 "2" "1" "3" 0 = Some (next, n') /\ (n' <= 0 + 0 + 1)%nat.
Proof.
  apply (nextScore_returns_on_high_draw mock.calm 0 "2" "1" "3" 1 0).
  - reflexivity.
  - lia.
  - vm_compute. discriminate.
Defined.

Lemma nextScore_never_returns_witness :
  mock.nextScore mock.restless 100 "1" "3" "4" 0 = None.
Proof.
  apply (nextScore_never_returns mock.restless 100 "1" "3" "4").
  repeat constructor.
Defined.

Section GeneratedRecords.
Import plugin client models mock.
Variable draws : nat -> Z.

Lemma randomishScore_score (n : nat) :
  In (fst (randomishScore draws n)) scores /\ snd (randomishScore draws n) = Datatypes.S n.
Proof.
  unfold randomishScore, Intn, scores.
  destruct (draws n <? 5); [|destruct (draws n <? 20); [|destruct (draws n <? 50)]];
    simpl; auto 6.
Qed.

Lemma score_parses (s : string) :
  In s scores -> nonEmpty s = true /\ isSome (strconv.Atoi s) = true.
Proof.
  unfold scores. simpl. intros [<-|[<-|[<-|[<-|[]]]]]; split; reflexivity.
Qed.

Lemma near_score (s t : string) : In s scores -> In t (s :: neighbours s) -> In t scores.
Proof.
  unfold scores. simpl.
  intros [<-|[<-|[<-|[<-|[]]]]]; simpl; intros H;
    repeat (destruct H as [<-|H]; [auto 6|]); destruct H.
Qed.

(** After [populatePerceivedRisk] the perceived risk is not below the
    clinical score. *)
Lemma perceived_not_below_clinical (r : Record_) :
  String.leb (ClinicalRisk r) (PerceivedRisk (populatePerceivedRisk r)) = true.
Proof.
  rewrite populatePerceivedRisk_unfold. simpl.
  destruct (raised_bounds (PerceivedRisk r) (ClinicalRisk r)) as (_ & H1 & _).
  remember (raised (PerceivedRisk r) (ClinicalRisk r)) as p1 eqn:E1. clear E1.
  destruct (raised_bounds p1 (FunctionalRisk r)) as (H2 & _ & _).
  remember (raised p1 (FunctionalRisk r)) as p2 eqn:E2. clear E2.
  destruct (raised_bounds p2 (PsychosocialRisk r)) as (H3 & _ & _).
  remember (raised p2 (PsychosocialRisk r)) as p3 eqn:E3. clear E3.
  destruct (raised_bounds p3 (UtilizationRisk r)) as (H4 & _ & _).
  repeat (eapply string_leb_trans; [eassumption|]). apply string_leb_refl.
Qed.

(** A record with a date that parses and four scores converts once its
    perceived risk has been populated. *)
Lemma populated_convertible (record : Record_) (c f p u : string) :
  isSome (time.ParseInLocation (RiskFactorDate record)) = true ->
  In c scores -> In f scores -> In p scores -> In u scores ->
  convertible (populatePerceivedRisk (setCategoryRisks record c f p u)) = true.
Proof.
  intros Hdate Hc Hf Hp Hu.
  pose proof (perceived_not_below_clinical (setCategoryRisks record c f p u)) as Hle.
  rewrite populatePerceivedRisk_unfold in *. simpl in Hle.
  unfold convertible, IsRiskFactorsComplete. simpl.
  destruct (score_parses c Hc) as [-> ->]. destruct (score_parses f Hf) as [-> ->].
  destruct (score_parses p Hp) as [-> ->]. destruct (score_parses u Hu) as [-> ->].
  rewrite Hdate.
  assert (Hd : nonEmpty (RiskFactorDate record) = true).
  { destruct (RiskFactorDate record); [discriminate Hdate | reflexivity]. }
  rewrite Hd. simpl.
  destruct (raised (raised (raised (raised (PerceivedRisk record) c) f) p) u);
    [|reflexivity].
  exfalso. unfold scores in Hc. simpl in Hc.
  destruct Hc as [<-|[<-|[<-|[<-|[]]]]]; discriminate Hle.
Qed.

(** X22: [populateInitialRecord] takes three draws, leaves the study ID,
    the event and the date of the record as they are, and gives it a
    clinical score of 1, 2 or 3 and three other scores of 1 to 4; if the
    date of the record parses, the record it gives converts to an
    assessment. *)
Theorem populateInitialRecord_gives_scores (p : patientSummary) (record : Record_) (n : nat) :
  snd (populateInitialRecord draws p record n) = (n + 3)%nat
  /\ StudyID (fst (populateInitialRecord draws p record n)) = StudyID record
  /\ EventName (fst (populateInitialRecord draws p record n)) = EventName record
  /\ RiskFactorDate (fst (populateInitialRecord draws p record n)) = RiskFactorDate record
  /\ In (ClinicalRisk (fst (populateInitialRecord draws p record n))) ["1"; "2"; "3"]%string
  /\ In (FunctionalRisk (fst (populateInitialRecord draws p record n))) scores
  /\ In (PsychosocialRisk (fst (populateInitialRecord draws p record n))) scores
  /\ In (UtilizationRisk (fst (populateInitialRecord draws p record n))) scores
  /\ (isSome (time.ParseInLocation (RiskFactorDate record)) = true ->
      convertible (fst (populateInitialRecord draws p record n)) = true).
Proof.
  unfold populateInitialRecord.
  destruct (randomishScore_score n) as [Hf Hn1].
  destruct (randomishScore draws n) as [f n1]. simpl in Hf, Hn1. subst n1.
  destruct (randomishScore_score (Datatypes.S n)) as [Hp Hn2].
  destruct (randomishScore draws (Datatypes.S n)) as [ps n2]. simpl in Hp, Hn2. subst n2.
  destruct (randomishScore_score (Datatypes.S (Datatypes.S n))) as [Hu Hn3].
  destruct (randomishScore draws (Datatypes.S (Datatypes.S n))) as [u n3].
  simpl in Hu, Hn3. subst n3.
  set (c := if wrapInt (ConditionCount p + MedicationCount p) <? 3 then "1"%string
            else if wrapInt (ConditionCount p + MedicationCount p) <? 6 then "2"%string
            else "3"%string).
  assert (Hc3 : In c ["1"; "2"; "3"]%string).
  { unfold c. destruct (_ <? 3); [|destruct (_ <? 6)]; simpl; auto. }
  assert (Hc : In c scores).
  { unfold scores. simpl in *. destruct Hc3 as [H|[H|[H|[]]]]; auto. }
  simpl fst. simpl snd.
  split; [lia|].
  repeat split; try (rewrite populatePerceivedRisk_unfold; simpl; assumption);
    try (rewrite populatePerceivedRisk_unfold; reflexivity).
  intros Hdate. now apply populated_convertible.
Qed.

(** X23: a record that [populateNextRecord] gives has, in each category,
    the score of the previous record or one next to it; its clinical
    score is within the bounds taken from the initial record, its other
    scores within 1 and 4; and if the previous record has four scores of
    1 to 4 and the date of the record parses, the record converts to an
    assessment. *)
Theorem populateNextRecord_stays_near (p : patientSummary) (record previous initial : Record_)
  (fuel n : nat) (next : Record_) (n' : nat) :
  populateNextRecord draws p record previous initial fuel n = Some (next, n') ->
  In (ClinicalRisk next) (ClinicalRisk previous :: neighbours (ClinicalRisk previous))
  /\ In (FunctionalRisk next) (FunctionalRisk previous :: neighbours (FunctionalRisk previous))
  /\ In (PsychosocialRisk next)
       (PsychosocialRisk previous :: neighbours (PsychosocialRisk previous))
  /\ In (UtilizationRisk next)
       (UtilizationRisk previous :: neighbours (UtilizationRisk previous))
  /\ outside (fst (clinicalBounds initial)) (snd (clinicalBounds initial)) (ClinicalRisk next)
     = false
  /\ outside "1" "4" (FunctionalRisk next) = false
  /\ outside "1" "4" (PsychosocialRisk next) = false
  /\ outside "1" "4" (UtilizationRisk next) = false
  /\ RiskFactorDate next = RiskFactorDate record
  /\ (Forall (fun s => In s scores)
        [ClinicalRisk previous; FunctionalRisk previous; PsychosocialRisk previous;
         UtilizationRisk previous] ->
      isSome (time.ParseInLocation (RiskFactorDate record)) = true ->
      convertible next = true).
Proof.
  unfold populateNextRecord.
  destruct (clinicalBounds initial) as [cLow cHigh]. simpl fst. simpl snd.
  destruct (nextScore draws fuel (ClinicalRisk previous) cLow cHigh n)
    as [[c n1]|] eqn:Hc; [|discriminate].
  destruct (nextScore draws fuel (FunctionalRisk previous) "1" "4" n1)
    as [[f n2]|] eqn:Hf; [|discriminate].
  destruct (nextScore draws fuel (PsychosocialRisk previous) "1" "4" n2)
    as [[ps n3]|] eqn:Hp; [|discriminate].
  destruct (nextScore draws fuel (UtilizationRisk previous) "1" "4" n3)
    as [[u n4]|] eqn:Hu; [|discriminate].
  intros [= <- <-].
  assert (Hnext : forall fuel prev low high n next n',
             nextScore draws fuel prev low high n = Some (next, n') ->
             outside low high next = false /\ In next (prev :: neighbours prev)).
  { clear. induction fuel as [|fuel IH]; intros prev low high n next n' H; simpl in H;
      [discriminate|].
    fold (outside low high (move prev (draws n))) in H.
    destruct (outside low high (move prev (draws n))) eqn:Hout; [eauto|].
    injection H as <- <-. split; [exact Hout | apply move_near]. }
  destruct (Hnext _ _ _ _ _ _ _ Hc) as [Hc1 Hc2]. destruct (Hnext _ _ _ _ _ _ _ Hf) as [Hf1 Hf2].
  destruct (Hnext _ _ _ _ _ _ _ Hp) as [Hp1 Hp2]. destruct (Hnext _ _ _ _ _ _ _ Hu) as [Hu1 Hu2].
  rewrite populatePerceivedRisk_unfold. simpl.
  repeat split; try assumption.
  intros Hprev Hdate.
  inversion Hprev as [|? ? Hpc Hprev1]; subst.
  inversion Hprev1 as [|? ? Hpf Hprev2]; subst.
  inversion Hprev2 as [|? ? Hpp Hprev3]; subst.
  inversion Hprev3 as [|? ? Hpu _]; subst.
  rewrite <- populatePerceivedRisk_unfold.
  apply populated_convertible; [assumption | | | |].
  - exact (near_score _ _ Hpc Hc2).
  - exact (near_score _ _ Hpf Hf2).
  - exact (near_score _ _ Hpp Hp2).
  - exact (near_score _ _ Hpu Hu2).
Qed.
End GeneratedRecords.

Lemma populateNextRecord_stays_near_witness :
  exists next n',
    mock.populateNextRecord mock.calm
      {| mock.SummaryID := "1"; mock.Age := 40; mock.ConditionCount := 0;
         mock.MedicationCount := 0 |}
      (mock.setCategoryRisks (mock.setPerceivedRisk fixtures.record1 "") "" "" "" "")
      fixtures.record0 fixtures.record0 1 0 = Some (next, n')
    /\ models.ClinicalRisk next = "3"%string
    /\ mock.outside "2" "4" (models.ClinicalRisk next) = false
    /\ convertible next = true.
Proof.
  eexists _, _. split; [reflexivity|].
  destruct (populateNextRecord_stays_near mock.calm
              {| mock.SummaryID := "1"; mock.Age := 40; mock.ConditionCount := 0;
                 mock.MedicationCount := 0 |}
              (mock.setCategoryRisks (mock.setPerceivedRisk fixtures.record1 "") "" "" "" "")
              fixtures.record0 fixtures.record0 1 0 _ _ eq_refl)
    as (_ & _ & _ & _ & Hbounds & _ & _ & _ & _ & Hconv).
  split; [reflexivity|]. split; [exact Hbounds|].
  apply Hconv; [|reflexivity].
  repeat (apply List.Forall_cons; [simpl; auto 6|]). apply List.Forall_nil.
Defined.

Section SummariesFacts.
Import plugin client models mock.
Variable World : Type.
Variable NewRequest : string -> string -> option error.
Variable Do : string -> World -> res (http.Response bundle) * World.
Variable approximateAge : time.Time -> Z.

Lemma summaryAt_countless (pMap : gmap string patientSummary) (id : string) :
  countless pMap ->
  ConditionCount (summaryAt pMap id) = 0 /\ MedicationCount (summaryAt pMap id) = 0.
Proof.
  intros H. unfold summaryAt. destruct (pMap !! id) as [sum|] eqn:E; simpl.
  - destruct (H _ _ E) as (_ & _ & Hc & Hm). now split.
  - now split.
Qed.

Lemma keep_countless (pMap : gmap string patientSummary) (sum : patientSummary) :
  countless pMap -> ConditionCount sum = 0 -> MedicationCount sum = 0 ->
  countless (keep pMap sum).
Proof.
  intros H Hc Hm. unfold keep.
  destruct (String.eqb (SummaryID sum) "") eqn:E; simpl; [exact H|].
  apply String.eqb_neq in E.
  intros id s Hl. apply lookup_insert_Some in Hl as [[<- <-]|[_ Hl]]; [|exact (H _ _ Hl)].
  repeat split; assumption.
Qed.

Lemma addEntry_countless (pMap pMap' : gmap string patientSummary) (entry : resource) :
  countless pMap -> addEntry approximateAge pMap entry = Returns pMap' -> countless pMap'.
Proof.
  intros H. destruct entry as [id [b|]|[id|]|[id|]|]; simpl; intros E;
    try discriminate E; injection E as <-;
    try (destruct (summaryAt_countless pMap id H) as [Hc Hm]);
    apply keep_countless; simpl; try assumption; try reflexivity;
    try (rewrite Hc; reflexivity); try (rewrite Hm; reflexivity).
Qed.

Lemma addEntries_countless (entries : list resource) :
  forall pMap pMap', countless pMap ->
    addEntries approximateAge pMap entries = Returns pMap' -> countless pMap'.
Proof.
  induction entries as [|entry rest IH]; intros pMap pMap' H E; simpl in E.
  - now injection E as <-.
  - destruct (addEntry approximateAge pMap entry) as [pMap1|] eqn:E1; [|discriminate].
    exact (IH _ _ (addEntry_countless _ _ _ H E1) E).
Qed.

Lemma summariesLoop_countless (fuel : nat) :
  forall pMap query w pMap' w', countless pMap ->
    summariesLoop World NewRequest Do approximateAge fuel pMap query w
    = Some (Returns (Ok pMap'), w') ->
    countless pMap'.
Proof.
  induction fuel as [|fuel IH]; intros pMap query w pMap' w' H E; simpl in E; [discriminate|].
  destruct (NewRequest "GET" query); [discriminate|].
  destruct (Do query w) as [[response|err] w1]; [|discriminate].
  destruct (negb (http.StatusCode response =? http.StatusOK)); [discriminate|].
  destruct (http.Decode response) as [b|err]; [|discriminate].
  destruct (addEntries approximateAge pMap (Entry b)) as [pMap1|] eqn:E1; [|discriminate].
  destruct (nextQuery query (Link b)) as [query' more].
  pose proof (addEntries_countless _ _ _ H E1) as H1.
  destruct more; [exact (IH _ _ _ _ _ H1 E)|].
  now injection E as <- <-.
Qed.

(** X24: whatever the server sends, the summaries that
    [getPatientSummariesFromFHIR] returns count no condition and no
    medication: a count is only ever added to itself, and it starts at
    zero.  Each summary is stored under its own ID, which is not empty,
    and the initial record that [populateInitialRecord] makes from it
    has the clinical score 1. *)
Theorem getPatientSummariesFromFHIR_counts_stay_zero (fuel : nat) (fhirEndpoint : string)
  (w w' : World) (pMap : gmap string patientSummary) :
  getPatientSummariesFromFHIR World NewRequest Do approximateAge fuel fhirEndpoint w
  = Some (Returns (Ok pMap), w') ->
  forall id sum, pMap !! id = Some sum ->
    SummaryID sum = id /\ id <> ""%string
    /\ ConditionCount sum = 0 /\ MedicationCount sum = 0
    /\ forall draws record n,
         ClinicalRisk (fst (populateInitialRecord draws sum record n)) = "1"%string.
Proof.
  intros E id sum Hl.
  assert (H0 : countless ∅) by (intros i s Hi; rewrite lookup_empty in Hi; discriminate).
  destruct (summariesLoop_countless _ _ _ _ _ _ H0 E id sum Hl) as (Hid & Hne & Hc & Hm).
  repeat split; try assumption.
  intros draws record n. unfold populateInitialRecord. rewrite Hc, Hm.
  destruct (randomishScore draws n) as [f n1]. destruct (randomishScore draws n1) as [p n2].
  destruct (randomishScore draws n2) as [u n3]. simpl fst.
  rewrite populatePerceivedRisk_unfold. reflexivity.
Qed.

(** The last link of relation next with a URL, if there is one. *)
Lemma nextQuery_app (links : list fhir.BundleLinkComponent) (link : fhir.BundleLinkComponent)
  (query : string) :
  nextQuery query (links ++ [link])
  = if String.eqb (fhir.Relation link) "next" && negb (String.eqb (fhir.Url link) "")
    then (fhir.Url link, true) else nextQuery query links.
Proof.
  unfold nextQuery. rewrite fold_left_app. simpl.
  destruct (fold_left _ links (query, false)) as [q more]. reflexivity.
Qed.

(** X25: the loop over the links of a page gives the URL of the last
    link of relation next that has a URL, and says that there are more
    pages; if the page has no such link, it leaves the query as it is and
    says that there are no more. *)
Theorem nextQuery_takes_last_next_link (query : string)
  (links : list fhir.BundleLinkComponent) :
  nextQuery query links
  = match
      reverse (filter (fun link => fhir.Relation link = "next"%string
                                   /\ fhir.Url link <> ""%string) links)
    with
    | [] => (query, false)
    | link :: _ => (fhir.Url link, true)
    end.
Proof.
  induction links as [|link links IH] using rev_ind; [reflexivity|].
  rewrite nextQuery_app, filter_app, reverse_app.
  destruct (String.eqb (fhir.Relation link) "next") eqn:Er; simpl.
  - apply String.eqb_eq in Er.
    destruct (String.eqb (fhir.Url link) "") eqn:Eu; simpl.
    + apply String.eqb_eq in Eu.
      rewrite filter_cons_False by (intros [_ Hu]; exact (Hu Eu)).
      rewrite filter_nil. exact IH.
    + apply String.eqb_neq in Eu.
      rewrite filter_cons_True by (split; assumption). reflexivity.
  - apply String.eqb_neq in Er.
    rewrite filter_cons_False by (intros [Hr _]; exact (Er Hr)).
    rewrite filter_nil. exact IH.
Qed.
End SummariesFacts.

Lemma getPatientSummariesFromFHIR_counts_witness :
  exists sum,
    mock.SummaryID sum = "p1"%string /\ "p1"%string <> ""%string
    /\ mock.ConditionCount sum = 0 /\ mock.MedicationCount sum = 0
    /\ forall draws record n,
         models.ClinicalRisk (fst (mock.populateInitialRecord draws sum record n))
         = "1"%string.
Proof.
  destruct (mock.getPatientSummariesFromFHIR unit (fun _ _ => None)
              (mock.onePage [mock.PatientEntry "p1" None; mock.ConditionEntry (Some "p1");
                             mock.ConditionEntry (Some "p1");
                             mock.MedicationStatementEntry (Some "p1")])
              (fun _ => 40) 1 "http://fhir" tt)
    as [[[[pMap|err]|] w']|] eqn:E; try discriminate E.
  assert (Hl : exists sum, pMap !! "p1"%string = Some sum).
  { vm_compute in E. injection E as <- _. eexists. reflexivity. }
  destruct Hl as [sum Hl]. exists sum.
  exact (getPatientSummariesFromFHIR_counts_stay_zero unit (fun _ _ => None)
           (mock.onePage [mock.PatientEntry "p1" None; mock.ConditionEntry (Some "p1");
                          mock.ConditionEntry (Some "p1");
                          mock.MedicationStatementEntry (Some "p1")])
           (fun _ => 40) 1 "http://fhir" tt w' pMap E "p1"%string sum Hl).
Defined.

Lemma populateInitialRecord_gives_scores_witness :
  isSome (time.ParseInLocation (models.RiskFactorDate fixtures.record0)) = true
  /\ convertible
       (fst (mock.populateInitialRecord mock.calm
               {| mock.SummaryID := "1"; mock.Age := 40; mock.ConditionCount := 2;
                  mock.MedicationCount := 2 |}
               fixtures.record0 0)) = true.
Proof.
  split; [reflexivity|].
  apply (populateInitialRecord_gives_scores mock.calm
           {| mock.SummaryID := "1"; mock.Age := 40; mock.ConditionCount := 2;
              mock.MedicationCount := 2 |}
           fixtures.record0 0).
  reflexivity.
Defined.
